(** * mrm-core, [npm.js]: reconciling requested packages with the project

    A shallow embedding of [packages/mrm-core/src/npm.js] and the properties
    of its two exported operations, [install] and [uninstall].

    Conventions of the embedding
    - a JavaScript object used as a map from names to strings is a
      [gmap string string] of its own properties, whose values are strings
      as the JSDoc types say; the object passed as [deps], whose key order
      reaches the command line, keeps its entries in order;
    - reading [o[name]] is [Js.get]: the own property when there is one, and
      else the member of [Object.prototype] of that name when there is one
      ([constructor], [toString], ...), which is neither [undefined] nor a
      string;
    - [undefined] is [None] or [Js.Undefined]; a value tested in a condition
      goes through [Js.truthy] or [Js.value_truthy], JavaScript's
      truthiness;
    - a [throw] is the [Thrown] result; the calls the module makes to its
      logger and to the command runner are recorded, in order, as a list of
      [Effect]s, and what the runner does with a command is left to it;
    - the [semver] and [listify] packages are not part of the repository:
      the functions used from them are variables of the section. *)

From Stdlib Require Import Ascii.
From stdpp Require Import base strings list gmap.

Local Open Scope string_scope.

(** ** JavaScript values *)

Module Js.

(** [!!s] for a string: every string but the empty one is truthy. *)
Definition str_truthy (s : string) : bool :=
  match s with
  | EmptyString => false
  | String _ _ => true
  end.

(** [!!v] for a string or [undefined]. *)
Definition truthy (v : option string) : bool :=
  match v with
  | Some s => str_truthy s
  | None => false
  end.

(** What reading a property of a plain object of strings gives:
    [undefined], a string, or the member of [Object.prototype] of the name
    read. *)
Inductive Value :=
  | Undefined
  | Str (s : string)
  | Inherited (member : string).

(** The names every plain object inherits from [Object.prototype]. *)
Definition prototype_members : list string :=
  [ "constructor"; "__defineGetter__"; "__defineSetter__"; "hasOwnProperty";
    "__lookupGetter__"; "__lookupSetter__"; "isPrototypeOf";
    "propertyIsEnumerable"; "toString"; "valueOf"; "__proto__";
    "toLocaleString" ].

(** [o[k]] for a plain object [o] whose own properties are strings. *)
Definition get (o : gmap string string) (k : string) : Value :=
  match o !! k with
  | Some s => Str s
  | None =>
      if bool_decide (k ∈ prototype_members) then Inherited k else Undefined
  end.

(** [!!v]: the inherited members are functions, or the object
    [Object.prototype] itself for [__proto__], and so are truthy. *)
Definition value_truthy (v : Value) : bool :=
  match v with
  | Undefined => false
  | Str s => str_truthy s
  | Inherited _ => true
  end.

(** [String(v)], as a template literal converts [v]: a native function
    prints as [function name() { [native code] }], where the name of
    [Object.prototype.constructor] is [Object]; [Object.prototype] prints as
    [[object Object]]. *)
Definition to_string (v : Value) : string :=
  match v with
  | Undefined => "undefined"
  | Str s => s
  | Inherited member =>
      if bool_decide (member = "__proto__") then "[object Object]"
      else if bool_decide (member = "constructor") then
        "function Object() { [native code] }"
      else "function " +:+ member +:+ "() { [native code] }"
  end.

(** [v || d] for a string [d]. *)
Definition or_else (v : Value) (d : string) : Value :=
  if value_truthy v then v else Str d.

(** An object literal with string values: the entries in property order,
    no key twice. *)
Record Object := mkObject {
  entries : list (string * string);
  entries_unique : bool_decide (NoDup entries.*1)
}.

(** [Object.keys(o)] *)
Definition keys (o : Object) : list string := (entries o).*1.

(** [o] read as a map: [o[k]] is [props o !! k]. *)
Definition props (o : Object) : gmap string string :=
  list_to_map (entries o).

End Js.

(** ** Results and effects *)

(** The error class of [./error]: only its message matters here. *)
Record MrmError := mkMrmError { message : string }.

Inductive Result (A : Type) : Type :=
  | Returned (a : A)
  | Thrown (e : MrmError).
Arguments Returned {A} a.
Arguments Thrown {A} e.

Definition bindR {A B} (r : Result A) (k : A -> Result B) : Result B :=
  match r with
  | Returned a => k a
  | Thrown e => Thrown e
  end.

(** [stdio] handed to the runner: ['inherit'] or the caller's value. *)
Inductive Stdio := Inherit | StdioValue (b : bool).

(** One call [execCommand(exec, program, args, { stdio, cwd })]. *)
Record Command := mkCommand {
  program : string;
  args : list string;
  stdio : Stdio;
  cwd : option string
}.

Inductive Effect :=
  | LogInfo (msg : string)
  | ExecCommand (c : Command).

(** A run of an exported function: what it did, in order, and how it ended. *)
Definition Run (A : Type) : Type := list Effect * Result A.

Definition ret {A} (a : A) : Run A := ([], Returned a).
Definition emit (e : Effect) : Run () := ([e], Returned ()).
Definition lift {A} (r : Result A) : Run A := ([], r).

Definition bind {A B} (m : Run A) (k : A -> Run B) : Run B :=
  match m with
  | (tr, Returned a) => let '(tr', r) := k a in ((tr ++ tr')%list, r)
  | (tr, Thrown e) => (tr, Thrown e)
  end.

Notation "'do' x <- m ; k" := (bind m (fun x => k))
  (at level 60, x name, m at next level, right associativity, only parsing).
Notation "'call' m ; k" := (bind m (fun _ => k))
  (at level 60, m at next level, right associativity, only parsing).

(** The commands among the effects of a run. *)
Definition commands (tr : list Effect) : list Command :=
  omap (fun e => match e with ExecCommand c => Some c | LogInfo _ => None end) tr.

(** ** The project on disk *)

(** What the module reads: the two sections of the manifest ([None] when
    the section is missing), the [version] field of
    [./node_modules/<name>/package.json] for each installed name ([None]
    when the file has no such field; no entry when there is no file), and
    whether [yarn.lock] exists. *)
Record Project := mkProject {
  pkg_dependencies : option (gmap string string);
  pkg_devDependencies : option (gmap string string);
  node_modules : gmap string (option string);
  yarn_lock : bool
}.

(** ** Arguments of the exported functions *)

(** [Options]: each property may be left out. *)
Record Options := mkOptions {
  dev : option bool;
  yarn : option bool;
  versions : option (gmap string string)
}.

(** [RunOptions] *)
Record RunOptions := mkRunOptions {
  run_dev : option bool;
  run_remove : option bool;
  run_stdio : option bool;
  run_cwd : option string
}.

(** The [deps] argument of [install]: a string, an array, an object, or
    anything else ([null], [undefined], ...). *)
Inductive Deps :=
  | DepName (s : string)
  | DepList (l : list string)
  | DepVersions (o : Js.Object)
  | DepOther.

(** The [deps] argument of [uninstall]. *)
Inductive Names :=
  | OneName (s : string)
  | ManyNames (l : list string).

(** [_.castArray(deps)] *)
Definition castArray (deps : Names) : list string :=
  match deps with
  | OneName s => [s]
  | ManyNames l => l
  end.

(** [!!b] for a boolean property that may be left out. *)
Definition flag (b : option bool) : bool := default false b.

(** [options.dev !== false] *)
Definition dev_scope (o : Options) : bool :=
  match dev o with
  | Some false => false
  | _ => true
  end.

Section Npm.

(** [semver.validRange(range)] is not [null]. *)
Variable validRange : string -> bool.
(** [semver.satisfies(version, range)] *)
Variable satisfies : string -> string -> bool.
(** [listify(names)] *)
Variable listify : list string -> string.

Variable project : Project.

(** [semver.validRange(v)] is not [null], for any value: semver fails to
    parse what is not a string and answers [null]. *)
Definition validRangeOf (v : Js.Value) : bool :=
  match v with
  | Js.Str range => validRange range
  | _ => false
  end.

(** [semver.satisfies(version, v)], for any value [v]: what is not a range
    is not satisfied. *)
Definition satisfiesOf (version : string) (v : Js.Value) : bool :=
  match v with
  | Js.Str range => satisfies version range
  | _ => false
  end.

(** [runNpm] *)
Definition runNpm (deps : list string) (options : RunOptions) : Run () :=
  let args :=
    ([ if flag (run_remove options) then "uninstall" else "install";
       if flag (run_dev options) then "--save-dev" else "--save" ]
     ++ deps)%list in
  emit (ExecCommand
    {| program := "npm"; args := args;
       stdio := match run_stdio options with
                | None => Inherit
                | Some b => StdioValue b
                end;
       cwd := run_cwd options |}).

(** [runYarn] *)
Definition runYarn (deps : list string) (options : RunOptions) : Run () :=
  let add := if flag (run_dev options) then ["add"; "--dev"] else ["add"] in
  let remove := ["remove"] in
  let args :=
    ((if flag (run_remove options) then remove else add) ++ deps)%list in
  emit (ExecCommand
    {| program := "yarn"; args := args;
       stdio := match run_stdio options with
                | None => Inherit
                | Some b => StdioValue b
                end;
       cwd := run_cwd options |}).

(** [getVersionedDep] *)
Definition getVersionedDep (dep : string) (versions : gmap string string)
  : string :=
  let version := Js.or_else (Js.get versions dep) "latest" in
  dep +:+ "@" +:+ Js.to_string version.

(** [getOwnDependencies]: [pkg.get(section) || {}] *)
Definition getOwnDependencies (dev : bool) : gmap string string :=
  default ∅ (if dev then pkg_devDependencies project
             else pkg_dependencies project).

(** [getInstalledVersion] *)
Definition getInstalledVersion (name : string) : option string :=
  mjoin (node_modules project !! name).

(** The callback of the [filter] in [getUnsatisfiedDeps]. *)
Definition unsatisfied (ownDependencies versions : gmap string string)
    (dep : string) : Result bool :=
  let required := Js.get versions dep in
  if Js.value_truthy required && negb (validRangeOf required) then
    Thrown {| message := "Invalid npm version: " +:+ Js.to_string required
                         +:+ ". Use proper semver range syntax." |}
  else
    let installed := getInstalledVersion dep in
    if negb (Js.truthy installed) then Returned true
    else if negb (Js.value_truthy (Js.get ownDependencies dep)) then
      Returned true
    else if negb (Js.value_truthy required) then
      Returned (negb (Js.truthy installed))
    else
      Returned (negb (satisfiesOf (default "" installed) required)).

(** [Array.prototype.filter] with a callback that may throw: the elements
    are visited from left to right and the first throw ends the call. *)
Fixpoint filterR (f : string -> Result bool) (l : list string)
  : Result (list string) :=
  match l with
  | [] => Returned []
  | x :: l' =>
      bindR (f x) (fun keep =>
      bindR (filterR f l') (fun rest =>
      Returned (if keep then x :: rest else rest)))
  end.

(** [getUnsatisfiedDeps] *)
Definition getUnsatisfiedDeps (deps : list string)
    (versions : gmap string string) (dev : bool) : Result (list string) :=
  let ownDependencies := getOwnDependencies dev in
  filterR (unsatisfied ownDependencies versions) deps.

(** [isUsingYarn] *)
Definition isUsingYarn : bool := yarn_lock project.

(** [options.yarn || isUsingYarn() ? runYarn : runNpm] *)
Definition select_run (options : Options)
  : list string -> RunOptions -> Run () :=
  if flag (yarn options) || isUsingYarn then runYarn else runNpm.

(** The two assignments [install] makes from the shape of [deps]. *)
Definition requested (deps : Deps) (options : Options)
  : list string * gmap string string :=
  let versions := default ∅ (versions options) in
  match deps with
  | DepName s => ([s], versions)
  | DepList l => (l, versions)
  | DepVersions o => (Js.keys o, Js.props o)
  | DepOther => ([], versions)
  end.

(** [install] *)
Definition install (deps : Deps) (options : Options) : Run () :=
  let dev := dev_scope options in
  let run := select_run options in
  let '(dependencies, versions) := requested deps options in
  do newDeps <- lift (getUnsatisfiedDeps dependencies versions dev);
  match newDeps with
  | [] => ret ()
  | _ =>
      call emit (LogInfo ("Installing " +:+ listify newDeps +:+ "..."));
      let versionedDeps :=
        map (fun dep => getVersionedDep dep versions) newDeps in
      run versionedDeps
        {| run_dev := Some dev; run_remove := None;
           run_stdio := None; run_cwd := None |}
  end.

(** [uninstall] *)
Definition uninstall (deps : Names) (options : Options) : Run () :=
  let deps := castArray deps in
  let dev := dev_scope options in
  let run := select_run options in
  let installed := getOwnDependencies dev in
  let newDeps :=
    filter (λ dep, Js.value_truthy (Js.get installed dep)) deps in
  match newDeps with
  | [] => ret ()
  | _ =>
      call emit (LogInfo ("Uninstalling " +:+ listify newDeps +:+ "..."));
      run newDeps
        {| run_dev := Some dev; run_remove := Some true;
           run_stdio := None; run_cwd := None |}
  end.

End Npm.

(** ** A reference evaluator for the library functions

    The fragment of the semver grammar the examples need: versions
    [major.minor.patch] of numeric identifiers, and the ranges [*], the empty
    range, an exact version and a caret range [^major.minor.patch]. Every
    other string is rejected, which is right for the strings used below and
    too strict in general; the theorems of this file hold for every
    [validRange] and [satisfies], these serve to run the code on inputs. *)

Module Reference.

Definition digit (a : ascii) : option nat :=
  let n := nat_of_ascii a in
  if (48 <=? n)%nat && (n <=? 57)%nat then Some (n - 48)%nat else None.

Fixpoint digits (s : string) (acc : nat) : option nat :=
  match s with
  | EmptyString => Some acc
  | String a s' => d ← digit a; digits s' (10 * acc + d)%nat
  end.

(** A numeric identifier: [0], or digits that do not start with [0]. *)
Definition numeric (s : string) : option nat :=
  match s with
  | EmptyString => None
  | String "0"%char (String _ _) => None
  | _ => digits s 0
  end.

(** The pieces of [s] between dots; [cur] is the piece being read,
    backwards. *)
Fixpoint split_dots (s : string) (cur : string) : list string :=
  match s with
  | EmptyString => [String.rev cur]
  | String "."%char s' => String.rev cur :: split_dots s' EmptyString
  | String a s' => split_dots s' (String a cur)
  end.

Definition parse_version (s : string) : option (nat * nat * nat) :=
  match split_dots s EmptyString with
  | [a; b; c] =>
      x ← numeric a; y ← numeric b; z ← numeric c; Some (x, y, z)
  | _ => None
  end.

Inductive range :=
  | Any
  | Exact (v : nat * nat * nat)
  | Caret (v : nat * nat * nat).

Definition parse_range (s : string) : option range :=
  match s with
  | EmptyString => Some Any
  | String "*"%char EmptyString => Some Any
  | String "^"%char s' => Caret <$> parse_version s'
  | _ => Exact <$> parse_version s
  end.

(** [v] lies in [^M.m.p]: at least [M.m.p] and the leftmost non-zero
    component unchanged. *)
Definition in_caret (base v : nat * nat * nat) : bool :=
  let '(M, m, p) := base in
  let '(M', m', p') := v in
  match M, m with
  | S _, _ => (M' =? M)%nat && ((m <? m')%nat || ((m' =? m)%nat && (p <=? p')%nat))
  | O, S _ => (M' =? 0)%nat && (m' =? m)%nat && (p <=? p')%nat
  | O, O => (M' =? 0)%nat && (m' =? 0)%nat && (p' =? p)%nat
  end.

Definition validRange (r : string) : bool :=
  match parse_range r with Some _ => true | None => false end.

Definition satisfies (version r : string) : bool :=
  match parse_version version, parse_range r with
  | Some v, Some Any => true
  | Some v, Some (Exact w) => bool_decide (v = w)
  | Some v, Some (Caret w) => in_caret w v
  | _, _ => false
  end.

(** [listify]: [a], [a and b], [a, b, and c]. *)
Fixpoint listify_tail (l : list string) : string :=
  match l with
  | [] => ""
  | [x] => ", and " +:+ x
  | x :: l' => ", " +:+ x +:+ listify_tail l'
  end.

Definition listify (l : list string) : string :=
  match l with
  | [] => ""
  | [x] => x
  | [x; y] => x +:+ " and " +:+ y
  | x :: l' => x +:+ listify_tail l'
  end.

Definition install := install validRange satisfies listify.
Definition uninstall := uninstall listify.
Definition getUnsatisfiedDeps := getUnsatisfiedDeps validRange satisfies.

End Reference.

(** ** Vocabulary of the properties *)

Section Vocabulary.

Variable validRange : string -> bool.
Variable satisfies : string -> string -> bool.
Variable project : Project.

(** The package has an installed version that is not the empty string. *)
Definition installed (dep : string) : bool :=
  Js.truthy (getInstalledVersion project dep).

(** Reading the package's name in the active section of the manifest gives
    a truthy value: a version that is not the empty string, or a member
    inherited from [Object.prototype]. *)
Definition declared (dev : bool) (dep : string) : bool :=
  Js.value_truthy (Js.get (getOwnDependencies project dev) dep).

(** The required range of a package: its entry in the version mapping,
    unless that is missing or empty. *)
Definition required_range (versions : gmap string string) (dep : string)
  : option string :=
  match versions !! dep with
  | Some r => if Js.str_truthy r then Some r else None
  | None => None
  end.

(** Reading the package's name in the version mapping gives a truthy value
    that is not a semver range: a non-empty string that semver rejects, or a
    member inherited from [Object.prototype]. *)
Definition invalid_range (versions : gmap string string) (dep : string)
  : bool :=
  Js.value_truthy (Js.get versions dep) &&
  negb (validRangeOf validRange (Js.get versions dep)).

(** The package needs an install: not installed, or not declared, or
    installed at a version outside its required range. *)
Definition needs_install (versions : gmap string string) (dev : bool)
    (dep : string) : bool :=
  negb (installed dep) || negb (declared dev dep) ||
  match required_range versions dep with
  | Some r => negb (satisfies (default "" (getInstalledVersion project dep)) r)
  | None => false
  end.

(** The message of the error thrown for the range whose text is [r]. *)
Definition invalid_message (r : string) : string :=
  "Invalid npm version: " +:+ r +:+ ". Use proper semver range syntax.".

(** The one command of a call, from the backend, the action, the scope
    and the package arguments. *)
Definition backend_command (use_yarn remove dev : bool)
    (packages : list string) : Command :=
  {| program := if use_yarn then "yarn" else "npm";
     args :=
       (match use_yarn, remove with
        | true, true => ["remove"]
        | true, false => if dev then ["add"; "--dev"] else ["add"]
        | false, true => ["uninstall"; if dev then "--save-dev" else "--save"]
        | false, false => ["install"; if dev then "--save-dev" else "--save"]
        end ++ packages)%list;
     stdio := Inherit;
     cwd := None |}.

(** The backend of a call: yarn when forced or when [yarn.lock] exists. *)
Definition uses_yarn (options : Options) : bool :=
  match yarn options with
  | Some true => true
  | _ => yarn_lock project
  end.

(** An entry of a mapping whose range is not empty and not a semver
    range. *)
Definition entry_invalid (e : string * string) : bool :=
  Js.str_truthy e.2 && negb (validRange e.2).

(** The package of an entry of a mapping needs an install, by the range of
    the entry: not installed, or not declared, or installed at a version
    outside the range when that is not empty. *)
Definition entry_needs_install (dev : bool) (e : string * string) : bool :=
  negb (installed e.1) || negb (declared dev e.1) ||
  (Js.str_truthy e.2 &&
   negb (satisfies (default "" (getInstalledVersion project e.1)) e.2)).

(** The argument of an entry of a mapping on the command line. *)
Definition entry_argument (e : string * string) : string :=
  e.1 +:+ "@" +:+ (if Js.str_truthy e.2 then e.2 else "latest").

End Vocabulary.

(** ** Projects and requests of the scenarios *)

Module Scenario.

(** No option given: development scope, backend by detection. *)
Definition no_options : Options :=
  {| dev := None; yarn := None; versions := None |}.

(** A project with no dependency section, nothing installed, no
    [yarn.lock]. *)
Definition fresh_project : Project :=
  {| pkg_dependencies := None; pkg_devDependencies := None;
     node_modules := ∅; yarn_lock := false |}.

(** [chalk] and [lodash] declared as development dependencies and
    installed. *)
Definition settled_project : Project :=
  {| pkg_dependencies := None;
     pkg_devDependencies :=
       Some {[ "chalk" := "^2.4.0"; "lodash" := "^1.2.0" ]};
     node_modules :=
       {[ "chalk" := Some "2.4.1"; "lodash" := Some "1.2.5" ]};
     yarn_lock := false |}.

(** The same with [lodash] installed at [1.1.0]. *)
Definition outdated_project : Project :=
  {| pkg_dependencies := None;
     pkg_devDependencies :=
       Some {[ "chalk" := "^2.4.0"; "lodash" := "^1.2.0" ]};
     node_modules :=
       {[ "chalk" := Some "2.4.1"; "lodash" := Some "1.1.0" ]};
     yarn_lock := false |}.

(** The settled project, with a [yarn.lock]. *)
Definition yarn_project : Project :=
  {| pkg_dependencies := None;
     pkg_devDependencies :=
       Some {[ "chalk" := "^2.4.0"; "lodash" := "^1.2.0" ]};
     node_modules :=
       {[ "chalk" := Some "2.4.1"; "lodash" := Some "1.2.5" ]};
     yarn_lock := true |}.

(** A manifest that declares [foo] with the empty version string, which
    npm reads as any version; [foo] is installed at [1.0.0]. *)
Definition blank_project : Project :=
  {| pkg_dependencies := None;
     pkg_devDependencies := Some {[ "foo" := "" ]};
     node_modules := {[ "foo" := Some "1.0.0" ]};
     yarn_lock := false |}.

(** [{ lodash: '^4.0.0' }] *)
Definition lodash_4 : Js.Object :=
  {| Js.entries := [("lodash", "^4.0.0")]; Js.entries_unique := I |}.

(** [{ lodash: '^1.2.0' }] *)
Definition lodash_1_2 : Js.Object :=
  {| Js.entries := [("lodash", "^1.2.0")]; Js.entries_unique := I |}.

(** [{ foo: 'bogus' }] *)
Definition foo_bogus : Js.Object :=
  {| Js.entries := [("foo", "bogus")]; Js.entries_unique := I |}.

(** [{ foo: '' }] *)
Definition foo_blank : Js.Object :=
  {| Js.entries := [("foo", "")]; Js.entries_unique := I |}.

(** [{ constructor: '^1.0.0' }] *)
Definition constructor_1 : Js.Object :=
  {| Js.entries := [("constructor", "^1.0.0")]; Js.entries_unique := I |}.

(** [{ chalk: '' }] *)
Definition chalk_blank : Js.Object :=
  {| Js.entries := [("chalk", "")]; Js.entries_unique := I |}.

(** A manifest with an empty development section; [constructor] is installed
    at [1.2.0]. *)
Definition constructor_project : Project :=
  {| pkg_dependencies := None;
     pkg_devDependencies := Some ∅;
     node_modules := {[ "constructor" := Some "1.2.0" ]};
     yarn_lock := false |}.

End Scenario.

(** ** Auxiliary facts *)

Section Facts.

Variable validRange : string -> bool.
Variable satisfies : string -> string -> bool.
Variable listify : list string -> string.
Variable project : Project.

Abbreviation unsatisfied' := (unsatisfied validRange satisfies project).
Abbreviation getUnsatisfiedDeps' :=
  (getUnsatisfiedDeps validRange satisfies project).
Abbreviation install' := (install validRange satisfies listify project).
Abbreviation uninstall' := (uninstall listify project).
Abbreviation needs_install' := (needs_install satisfies project).
Abbreviation invalid_range' := (invalid_range validRange).

Lemma str_truthy_true s : Js.str_truthy s = true ↔ s ≠ "".
Proof. destruct s; simpl; split; congruence. Qed.

Lemma str_truthy_false s : Js.str_truthy s = false ↔ s = "".
Proof. destruct s; simpl; split; congruence. Qed.

Lemma truthy_true v : Js.truthy v = true ↔ ∃ s, v = Some s ∧ s ≠ "".
Proof.
  destruct v as [s|]; simpl.
  - rewrite str_truthy_true. split; [eauto | intros (? & [= <-] & ?); done].
  - split; [done | intros (? & ? & ?); done].
Qed.

Lemma truthy_false v : Js.truthy v = false ↔ v = None ∨ v = Some "".
Proof.
  destruct v as [s|]; simpl.
  - rewrite str_truthy_false. split; [intros ->; by right|].
    intros [?|[= ->]]; done.
  - split; [by left|done].
Qed.

Lemma required_range_Some versions dep r :
  required_range versions dep = Some r ↔ versions !! dep = Some r ∧ r ≠ "".
Proof.
  unfold required_range. destruct (versions !! dep) as [r'|]; [|split; [done|by intros []]].
  destruct (Js.str_truthy r') eqn:E.
  - apply str_truthy_true in E. split; [by intros [= <-]|by intros [[= <-] _]].
  - apply str_truthy_false in E. split; [done|]. intros [[= <-] ?]. done.
Qed.

Lemma required_range_None versions dep :
  required_range versions dep = None ↔
  versions !! dep = None ∨ versions !! dep = Some "".
Proof.
  unfold required_range. destruct (versions !! dep) as [r'|]; [|split; [by left|done]].
  destruct (Js.str_truthy r') eqn:E.
  - apply str_truthy_true in E. split; [done|]. intros [?|[= ?]]; done.
  - apply str_truthy_false in E. subst r'. split; [by right|done].
Qed.

(** Reading an own property. *)
Lemma get_own (o : gmap string string) k v :
  o !! k = Some v → Js.get o k = Js.Str v.
Proof. unfold Js.get. by intros ->. Qed.

(** Reading a name that is no own property and no inherited member. *)
Lemma get_missing (o : gmap string string) k :
  o !! k = None → k ∉ Js.prototype_members → Js.get o k = Js.Undefined.
Proof. unfold Js.get. intros -> Hk. by rewrite bool_decide_eq_false_2. Qed.

(** Reading a name that is no own property but an inherited member. *)
Lemma get_inherited (o : gmap string string) k :
  o !! k = None → k ∈ Js.prototype_members → Js.get o k = Js.Inherited k.
Proof. unfold Js.get. intros -> Hk. by rewrite bool_decide_eq_true_2. Qed.

(** A read is falsy for an own empty string and for a name that is neither
    own nor inherited. *)
Lemma get_falsy (o : gmap string string) k :
  Js.value_truthy (Js.get o k) = false ↔
  (o !! k = None ∧ k ∉ Js.prototype_members) ∨ o !! k = Some "".
Proof.
  unfold Js.get. destruct (o !! k) as [v|]; simpl.
  - rewrite str_truthy_false. split; [intros ->; by right|].
    intros [[? _]|[= ->]]; done.
  - case_bool_decide; simpl.
    + split; [done|]. intros [[_ ?]|?]; done.
    + split; [by left|done].
Qed.

(** A read is truthy for an own non-empty string and for an inherited
    member. *)
Lemma get_truthy (o : gmap string string) k :
  Js.value_truthy (Js.get o k) = true ↔
  (∃ v, o !! k = Some v ∧ v ≠ "") ∨
  (o !! k = None ∧ k ∈ Js.prototype_members).
Proof.
  unfold Js.get. destruct (o !! k) as [v|]; simpl.
  - rewrite str_truthy_true. split; [intros ?; left; by exists v|].
    intros [(v' & [= <-] & ?)|[? _]]; done.
  - case_bool_decide; simpl.
    + split; [by right|done].
    + split; [done|]. intros [(? & ? & _)|[_ ?]]; done.
Qed.

(** A read that validation lets through is [undefined], the empty string or
    a semver range. *)
Lemma invalid_range_false versions dep :
  invalid_range' versions dep = false →
  required_range versions dep = None ∧
    Js.value_truthy (Js.get versions dep) = false ∨
  ∃ r, required_range versions dep = Some r ∧
       Js.get versions dep = Js.Str r ∧ r ≠ "" ∧ validRange r = true.
Proof.
  unfold invalid_range, required_range, Js.get.
  destruct (versions !! dep) as [r|]; simpl.
  - destruct (Js.str_truthy r) eqn:Er; simpl.
    + rewrite negb_false_iff. intros Hvalid. right. exists r.
      apply str_truthy_true in Er. done.
    + intros _. by left.
  - case_bool_decide; simpl; [done|]. intros _. by left.
Qed.

(** What the callback of the filter does with one package. *)
Lemma unsatisfied_cases versions dev dep :
  unsatisfied' (getOwnDependencies project dev) versions dep =
  if invalid_range' versions dep then
    Thrown {| message :=
      invalid_message (Js.to_string (Js.get versions dep)) |}
  else Returned (needs_install' versions dev dep).
Proof.
  unfold unsatisfied. fold (invalid_range validRange versions dep).
  destruct (invalid_range' versions dep) eqn:Hinv; [done|].
  unfold needs_install, installed, declared.
  destruct (invalid_range_false _ _ Hinv)
    as [[-> Hfalsy]|(r & -> & Hget & Hne & Hvalid)].
  - rewrite Hfalsy. simpl.
    destruct (Js.truthy (getInstalledVersion project dep)); simpl; [|done].
    by destruct (Js.value_truthy
      (Js.get (getOwnDependencies project dev) dep)).
  - rewrite Hget. simpl. rewrite (proj2 (str_truthy_true r)) by done. simpl.
    destruct (Js.truthy (getInstalledVersion project dep)); simpl; [|done].
    by destruct (Js.value_truthy
      (Js.get (getOwnDependencies project dev) dep)).
Qed.

(** The filter returns when its callback returns on every element. *)
Lemma filterR_returned (f : string → Result bool) (g : string → bool) l :
  (∀ x, x ∈ l → f x = Returned (g x)) →
  filterR f l = Returned (filter (λ x, g x) l).
Proof.
  induction l as [|x l IH]; intros Hf; [done|].
  simpl. rewrite (Hf x) by left. simpl.
  rewrite IH by (intros y Hy; apply Hf; by right). simpl.
  rewrite filter_cons. destruct (g x); by case_decide.
Qed.

(** The filter throws what its callback throws first. *)
Lemma filterR_thrown (f : string → Result bool) l :
  (∃ x e, x ∈ l ∧ f x = Thrown e) →
  ∃ x e, x ∈ l ∧ f x = Thrown e ∧ filterR f l = Thrown e.
Proof.
  induction l as [|y l IH]; intros (x & e & Hx & Hfx).
  - by apply elem_of_nil in Hx.
  - simpl. destruct (f y) as [b|e'] eqn:Hfy; simpl.
    + apply elem_of_cons in Hx as [->|Hx]; [congruence|].
      destruct IH as (x' & e'' & Hx' & Hfx' & Hthrow); [by eauto|].
      exists x', e''. rewrite Hthrow. split_and!; [by right|done|done].
    + exists y, e'. split_and!; [by left|done|done].
Qed.

(** A returned filter visited only elements on which the callback
    returned. *)
Lemma filterR_inv (f : string → Result bool) l res :
  filterR f l = Returned res →
  ∀ x, x ∈ l → ∃ b, f x = Returned b.
Proof.
  revert res. induction l as [|y l IH]; intros res Hres x Hx.
  - by apply elem_of_nil in Hx.
  - simpl in Hres. destruct (f y) as [b|] eqn:Hfy; simpl in Hres; [|done].
    destruct (filterR f l) as [rest|] eqn:Hrest; simpl in Hres; [|done].
    apply elem_of_cons in Hx as [->|Hx]; [by eauto|]. by eapply IH.
Qed.

(** [getUnsatisfiedDeps] when validation lets every requested name
    through. *)
Lemma getUnsatisfiedDeps_returned deps versions dev :
  (∀ dep, dep ∈ deps → invalid_range' versions dep = false) →
  getUnsatisfiedDeps' deps versions dev =
  Returned (filter (λ dep, needs_install' versions dev dep) deps).
Proof.
  intros Hvalid. unfold getUnsatisfiedDeps.
  apply filterR_returned. intros dep Hdep.
  rewrite unsatisfied_cases, Hvalid; done.
Qed.

(** ... and the converse: a returned result is that filter. *)
Lemma getUnsatisfiedDeps_inv deps versions dev newDeps :
  getUnsatisfiedDeps' deps versions dev = Returned newDeps →
  (∀ dep, dep ∈ deps → invalid_range' versions dep = false) ∧
  newDeps = filter (λ dep, needs_install' versions dev dep) deps.
Proof.
  intros Hres.
  assert (∀ dep, dep ∈ deps → invalid_range' versions dep = false) as Hvalid.
  { intros dep Hdep.
    destruct (filterR_inv _ _ _ Hres dep Hdep) as [b Hb].
    rewrite unsatisfied_cases in Hb.
    by destruct (invalid_range' versions dep). }
  split; [done|].
  rewrite getUnsatisfiedDeps_returned in Hres by done. congruence.
Qed.

(** [getUnsatisfiedDeps] when validation stops at some requested name. *)
Lemma getUnsatisfiedDeps_thrown deps versions dev :
  (∃ dep, dep ∈ deps ∧ invalid_range' versions dep = true) →
  ∃ dep, dep ∈ deps ∧ invalid_range' versions dep = true ∧
    getUnsatisfiedDeps' deps versions dev =
      Thrown {| message :=
        invalid_message (Js.to_string (Js.get versions dep)) |}.
Proof.
  intros (dep & Hdep & Hinv).
  destruct (filterR_thrown
    (unsatisfied' (getOwnDependencies project dev) versions) deps)
    as (dep' & e & Hdep' & He & Hthrow).
  { exists dep. eexists. split; [done|].
    rewrite unsatisfied_cases, Hinv. done. }
  rewrite unsatisfied_cases in He.
  destruct (invalid_range' versions dep') eqn:Hinv'; [|done].
  exists dep'. split_and!; [done|done|].
  unfold getUnsatisfiedDeps. rewrite Hthrow. by injection He as <-.
Qed.

(** The whole of an [install] call, from the result of
    [getUnsatisfiedDeps]. *)
Lemma install_run deps options :
  install' deps options =
  match getUnsatisfiedDeps' (requested deps options).1
          (requested deps options).2 (dev_scope options) with
  | Thrown e => ([], Thrown e)
  | Returned [] => ([], Returned ())
  | Returned newDeps =>
      ([ LogInfo ("Installing " +:+ listify newDeps +:+ "...");
         ExecCommand
           (backend_command (uses_yarn project options) false
              (dev_scope options)
              (map (λ dep, getVersionedDep dep (requested deps options).2)
                 newDeps)) ],
       Returned ())
  end.
Proof.
  unfold install.
  destruct (requested deps options) as [dependencies versions]; simpl.
  destruct (getUnsatisfiedDeps _ _ _ _ _ _) as [[|dep newDeps]|e];
    [done| |done].
  unfold select_run, uses_yarn, isUsingYarn, flag, lift, bind, emit.
  destruct (yarn options) as [[]|], (yarn_lock project), (dev_scope options);
    reflexivity.
Qed.

(** The whole of an [uninstall] call. *)
Lemma uninstall_run deps options :
  uninstall' deps options =
  match filter (λ dep, declared project (dev_scope options) dep)
          (castArray deps) with
  | [] => ([], Returned ())
  | newDeps =>
      ([ LogInfo ("Uninstalling " +:+ listify newDeps +:+ "...");
         ExecCommand
           (backend_command (uses_yarn project options) true
              (dev_scope options) newDeps) ],
       Returned ())
  end.
Proof.
  unfold uninstall, declared.
  destruct (filter _ (castArray deps)) as [|dep newDeps]; [done|].
  unfold select_run, uses_yarn, isUsingYarn, flag, bind, emit.
  destruct (yarn options) as [[]|], (yarn_lock project), (dev_scope options);
    reflexivity.
Qed.

(** When a package needs an install, in the words of the manifest and of
    the installed tree. *)
Lemma needs_install_iff versions dev dep :
  needs_install' versions dev dep = true ↔
  (getInstalledVersion project dep = None ∨
   getInstalledVersion project dep = Some "") ∨
  ((getOwnDependencies project dev !! dep = None ∧
    dep ∉ Js.prototype_members) ∨
   getOwnDependencies project dev !! dep = Some "") ∨
  (∃ v r, getInstalledVersion project dep = Some v ∧
          versions !! dep = Some r ∧ r ≠ "" ∧ satisfies v r = false).
Proof.
  unfold needs_install, installed, declared.
  rewrite !orb_true_iff, !negb_true_iff, !truthy_false, get_falsy.
  split.
  - intros [[H|H]|H]; [by left|by right; left|].
    destruct (required_range versions dep) as [r|] eqn:Hr; [|done].
    apply required_range_Some in Hr as [Hr Hne].
    apply negb_true_iff in H.
    destruct (getInstalledVersion project dep) as [v|] eqn:Hv;
      [|by left; left].
    right; right. by exists v, r.
  - intros [H|[H|(v & r & Hv & Hr & Hne & Hsat)]];
      [by left; left|by left; right|].
    right. rewrite (proj2 (required_range_Some versions dep r)) by done.
    rewrite Hv. simpl. by rewrite Hsat.
Qed.

(** The argument of a package that validation lets through. *)
Lemma getVersionedDep_valid versions dep :
  invalid_range' versions dep = false →
  getVersionedDep dep versions =
  match required_range versions dep with
  | Some r => dep +:+ "@" +:+ r
  | None => dep +:+ "@latest"
  end.
Proof.
  intros Hinv. unfold getVersionedDep, Js.or_else.
  destruct (invalid_range_false _ _ Hinv)
    as [[-> ->]|(r & -> & -> & Hne & _)]; [done|].
  simpl. by rewrite (proj2 (str_truthy_true r)).
Qed.

(** Validation lets a name through when its own range, if not empty, is a
    semver range, and when a name without a range of its own is no inherited
    member. *)
Lemma invalid_range_false_iff versions dep :
  invalid_range' versions dep = false ↔
  (∀ r, versions !! dep = Some r → r ≠ "" → validRange r = true) ∧
  (versions !! dep = None → dep ∉ Js.prototype_members).
Proof.
  unfold invalid_range, Js.get. destruct (versions !! dep) as [r|]; simpl.
  - destruct (Js.str_truthy r) eqn:Er; simpl.
    + apply str_truthy_true in Er. rewrite negb_false_iff. split.
      * intros Hvalid. split; [by intros ? [= <-] _|done].
      * intros [Hvalid _]. by apply Hvalid.
    + apply str_truthy_false in Er. subst r. split; [|done]. intros _.
      split; [by intros ? [= <-] ?|done].
  - case_bool_decide; simpl.
    + split; [done|]. intros [_ Hno]. by destruct Hno.
    + split; [|done]. intros _. split; [done|]. by intros _.
Qed.

(** Validation stops at a name whose own range is not empty and not a semver
    range, and at a name without a range of its own that is an inherited
    member. *)
Lemma invalid_range_true_iff versions dep :
  invalid_range' versions dep = true ↔
  (∃ r, versions !! dep = Some r ∧ r ≠ "" ∧ validRange r = false) ∨
  (versions !! dep = None ∧ dep ∈ Js.prototype_members).
Proof.
  unfold invalid_range, Js.get. destruct (versions !! dep) as [r|]; simpl.
  - rewrite andb_true_iff, negb_true_iff, str_truthy_true. split.
    + intros [Hne Hbad]. left. by exists r.
    + intros [(r' & [= <-] & Hne & Hbad)|[? _]]; done.
  - case_bool_decide; simpl.
    + split; [by right|done].
    + split; [done|]. intros [(? & ? & _)|[_ ?]]; done.
Qed.

(** A filter on the keys of a list of entries is the filter on the
    entries. *)
Lemma filter_keys (P : string → bool) (es : list (string * string)) :
  filter (λ k, P k) es.*1 = (filter (λ e, P e.1) es).*1.
Proof.
  induction es as [|e es IH]; [done|].
  rewrite fmap_cons, !filter_cons, IH. by destruct (P e.1).
Qed.

(** The entries of a mapping, read through the mapping. *)
Lemma props_entry (o : Js.Object) k v :
  (k, v) ∈ Js.entries o → Js.props o !! k = Some v.
Proof.
  intros Hin. unfold Js.props. apply elem_of_list_to_map; [|done].
  apply (bool_decide_unpack _ (Js.entries_unique o)).
Qed.

(** The filter of [getUnsatisfiedDeps] over keys of a mapping, entry by
    entry. *)
Lemma filterR_entries (versions : gmap string string) dev
    (es : list (string * string)) :
  (∀ e, e ∈ es → versions !! e.1 = Some e.2) →
  filterR (unsatisfied' (getOwnDependencies project dev) versions) es.*1 =
  match List.find (entry_invalid validRange) es with
  | Some e => Thrown {| message := invalid_message e.2 |}
  | None =>
      Returned
        (filter (λ e, entry_needs_install satisfies project dev e) es).*1
  end.
Proof.
  induction es as [|e es IH]; intros Hget; [done|].
  rewrite fmap_cons. cbn [filterR List.find].
  rewrite unsatisfied_cases.
  assert (invalid_range' versions e.1 = entry_invalid validRange e) as ->.
  { unfold invalid_range, entry_invalid.
    by rewrite (get_own _ _ _ (Hget e ltac:(left))). }
  destruct (entry_invalid validRange e) eqn:Hbad; simpl.
  - by rewrite (get_own _ _ _ (Hget e ltac:(left))).
  - rewrite IH by (intros e' He'; apply Hget; by right).
    destruct (List.find _ es); simpl; [done|].
    assert (needs_install' versions dev e.1 =
            entry_needs_install satisfies project dev e) as ->.
    { unfold needs_install, entry_needs_install, required_range.
      rewrite (Hget e ltac:(left)). by destruct (Js.str_truthy e.2). }
    rewrite filter_cons.
    by destruct (entry_needs_install satisfies project dev e).
Qed.

(** The argument of an entry of a mapping is what [getVersionedDep] builds
    from the mapping. *)
Lemma entry_argument_get (versions : gmap string string)
    (es : list (string * string)) :
  (∀ e, e ∈ es → versions !! e.1 = Some e.2) →
  map (λ dep, getVersionedDep dep versions) es.*1 = map entry_argument es.
Proof.
  induction es as [|e es IH]; intros Hget; [done|].
  rewrite fmap_cons. cbn [map].
  rewrite IH by (intros e' He'; apply Hget; by right). f_equal.
  unfold getVersionedDep, entry_argument, Js.or_else.
  rewrite (get_own _ _ _ (Hget e ltac:(left))). simpl.
  by destruct (Js.str_truthy e.2).
Qed.

End Facts.

(** ** The install path *)

Section InstallPath.

Variable validRange : string -> bool.
Variable satisfies : string -> string -> bool.
Variable listify : list string -> string.
Variable project : Project.

Abbreviation getUnsatisfiedDeps' :=
  (getUnsatisfiedDeps validRange satisfies project).
Abbreviation install' := (install validRange satisfies listify project).

(** X17. When validation lets every requested name through,
    [getUnsatisfiedDeps] returns the requested packages that need an install,
    in request order. A package is in the result iff its installed version
    is missing or empty, or reading its name in the active section of the
    manifest gives nothing or the empty string, or it has a non-empty range
    of its own that its installed version does not satisfy. A name that the
    section does not hold but every object inherits, like [constructor],
    reads as declared. *)
Theorem unsatisfied_deps_exact deps versions dev :
  (∀ dep, dep ∈ deps →
     (∀ r, versions !! dep = Some r → r ≠ "" → validRange r = true) ∧
     (versions !! dep = None → dep ∉ Js.prototype_members)) →
  ∃ newDeps,
    getUnsatisfiedDeps' deps versions dev = Returned newDeps ∧
    newDeps = filter (λ dep, needs_install satisfies project versions dev dep)
                deps ∧
    sublist newDeps deps ∧
    ∀ dep, dep ∈ newDeps ↔
      dep ∈ deps ∧
      ((getInstalledVersion project dep = None ∨
        getInstalledVersion project dep = Some "") ∨
       ((getOwnDependencies project dev !! dep = None ∧
         dep ∉ Js.prototype_members) ∨
        getOwnDependencies project dev !! dep = Some "") ∨
       (∃ v r, getInstalledVersion project dep = Some v ∧
               versions !! dep = Some r ∧ r ≠ "" ∧ satisfies v r = false)).
Proof.
  clear listify.
  intros Hvalid. eexists. split.
  { apply getUnsatisfiedDeps_returned. intros dep Hdep.
    apply invalid_range_false_iff. by apply Hvalid. }
  split; [done|]. split; [apply sublist_filter|].
  intros dep. rewrite list_elem_of_filter, Is_true_true, needs_install_iff.
  tauto.
Qed.

(** C2 (amended). When some requested package has a non-empty required range
    that is not a semver range, [install] throws an error whose message is
    "Invalid npm version: <x>. Use proper semver range syntax.", and it has
    done nothing before: no log line, no command. The text [x] is the
    non-empty invalid range of a requested package, provided that no
    requested name without a range of its own is the name of a member that
    objects inherit. *)
Theorem install_invalid_range_throws deps options :
  (∃ dep r, dep ∈ (requested deps options).1 ∧
            (requested deps options).2 !! dep = Some r ∧
            r ≠ "" ∧ validRange r = false) →
  ∃ x,
    install' deps options =
      ([], Thrown {| message :=
         "Invalid npm version: " +:+ x +:+
         ". Use proper semver range syntax." |}) ∧
    ((∀ dep, dep ∈ (requested deps options).1 →
        (requested deps options).2 !! dep = None →
        dep ∉ Js.prototype_members) →
     ∃ dep, dep ∈ (requested deps options).1 ∧
            (requested deps options).2 !! dep = Some x ∧
            x ≠ "" ∧ validRange x = false).
Proof.
  intros (dep & r & Hdep & Hr & Hne & Hbad).
  destruct (getUnsatisfiedDeps_thrown validRange satisfies project
              (requested deps options).1 (requested deps options).2
              (dev_scope options))
    as (dep' & Hdep' & Hinv' & Hthrow).
  { exists dep. split; [done|]. apply invalid_range_true_iff. left.
    by exists r. }
  exists (Js.to_string (Js.get (requested deps options).2 dep')). split.
  - rewrite install_run, Hthrow. done.
  - intros Hown. exists dep'. split; [done|].
    apply invalid_range_true_iff in Hinv'
      as [(r' & Hr' & Hne' & Hbad')|[Hnone Hmember]].
    + by rewrite (get_own _ _ _ Hr').
    + by destruct (Hown dep' Hdep' Hnone).
Qed.

End InstallPath.

(** ** The uninstall path *)

Section UninstallPath.

Variable listify : list string -> string.
Variable project : Project.

(** X18. [uninstall] removes the requested names that read as truthy in the
    active section of the manifest, in request order: the names to which the
    section gives a non-empty version, and the names that the section does
    not hold but every object inherits. The other requested names are
    skipped without an error. With nothing to remove it does nothing;
    otherwise it logs one line and runs one command on all of them. *)
Theorem uninstall_removes_declared deps options :
  let own := getOwnDependencies project (dev_scope options) in
  ∃ removable,
    removable = filter (λ dep, declared project (dev_scope options) dep)
                  (castArray deps) ∧
    (∀ dep, dep ∈ removable ↔
       dep ∈ castArray deps ∧
       ((∃ v, own !! dep = Some v ∧ v ≠ "") ∨
        (own !! dep = None ∧ dep ∈ Js.prototype_members))) ∧
    sublist removable (castArray deps) ∧
    uninstall listify project deps options =
      match removable with
      | [] => ([], Returned ())
      | _ =>
          ([ LogInfo ("Uninstalling " +:+ listify removable +:+ "...");
             ExecCommand
               (backend_command (uses_yarn project options) true
                  (dev_scope options) removable) ],
           Returned ())
      end.
Proof.
  intros own. eexists. split; [done|]. split_and!.
  - intros dep. rewrite list_elem_of_filter, Is_true_true. unfold declared.
    rewrite get_truthy. tauto.
  - apply sublist_filter.
  - rewrite uninstall_run. by destruct (filter _ (castArray deps)).
Qed.

End UninstallPath.

(** ** Backend and command line *)

Section CommandLine.

Variable validRange : string -> bool.
Variable satisfies : string -> string -> bool.
Variable listify : list string -> string.
Variable project : Project.

Abbreviation getUnsatisfiedDeps' :=
  (getUnsatisfiedDeps validRange satisfies project).
Abbreviation install' := (install validRange satisfies listify project).
Abbreviation uninstall' := (uninstall listify project).

(** C5. The backend of a call is yarn when the [yarn] option is set, and
    otherwise yarn iff [yarn.lock] exists, else npm. With packages to install,
    [install] runs one command on all of them: [yarn add] with yarn and
    [npm install] with npm. With names to remove, [uninstall] runs one
    command on all of them: [yarn remove] with yarn and [npm uninstall] with
    npm. *)
Theorem backend_selection deps names options :
  let y := uses_yarn project options in
  let scope := dev_scope options in
  select_run project options = (if y then runYarn else runNpm) ∧
  (y = true ↔ yarn options = Some true ∨ yarn_lock project = true) ∧
  (y = false ↔ yarn options ≠ Some true ∧ yarn_lock project = false) ∧
  (∀ newDeps,
     getUnsatisfiedDeps' (requested deps options).1
       (requested deps options).2 scope = Returned newDeps →
     commands (install' deps options).1 =
       match newDeps with
       | [] => []
       | _ =>
           [ {| program := if y then "yarn" else "npm";
                args :=
                  ((if y then if scope then ["add"; "--dev"] else ["add"]
                    else ["install";
                          if scope then "--save-dev" else "--save"])
                   ++ map (λ dep,
                             getVersionedDep dep (requested deps options).2)
                        newDeps)%list;
                stdio := Inherit; cwd := None |} ]
       end) ∧
  commands (uninstall' names options).1 =
    match filter (λ dep, Js.value_truthy
                           (Js.get (getOwnDependencies project scope) dep))
            (castArray names) with
    | [] => []
    | removable =>
        [ {| program := if y then "yarn" else "npm";
             args :=
               ((if y then ["remove"]
                 else ["uninstall";
                       if scope then "--save-dev" else "--save"])
                ++ removable)%list;
             stdio := Inherit; cwd := None |} ]
    end.
Proof.
  intros y scope. split_and!.
  - unfold select_run, y, uses_yarn, isUsingYarn, flag.
    by destruct (yarn options) as [[]|], (yarn_lock project).
  - unfold y, uses_yarn.
    destruct (yarn options) as [[]|], (yarn_lock project);
      split; (by auto) || (by intros []).
  - unfold y, uses_yarn.
    destruct (yarn options) as [[]|], (yarn_lock project);
      split; (by auto) || (by intros []).
  - intros newDeps Hres. rewrite install_run. fold scope. rewrite Hres.
    destruct newDeps as [|dep newDeps]; [done|]. fold y.
    unfold backend_command. by destruct y, scope.
  - rewrite uninstall_run. fold scope y. unfold declared.
    destruct (filter _ (castArray names)) as [|dep removable]; [done|].
    unfold backend_command. by destruct y, scope.
Qed.

(** C6 (amended). The arguments of a command are the verb, then the scope
    flag, then the packages in order. npm gets a scope flag for both actions:
    [--save-dev] in development scope and [--save] otherwise. yarn gets
    [--dev] for [add] in development scope and no flag otherwise; for
    [remove] the scope is not looked at. *)
Theorem command_arguments deps options :
  let remove := flag (run_remove options) in
  let dev := flag (run_dev options) in
  args <$> commands (runNpm deps options).1 =
    [ (if remove then "uninstall" else "install") ::
      (if dev then "--save-dev" else "--save") :: deps ] ∧
  args <$> commands (runYarn deps options).1 =
    [ if remove then "remove" :: deps
      else if dev then "add" :: "--dev" :: deps else "add" :: deps ] ∧
  (remove = true → ∀ dev',
     args <$> commands (runYarn deps options).1 =
     args <$> commands (runYarn deps
       {| run_dev := dev'; run_remove := run_remove options;
          run_stdio := run_stdio options; run_cwd := run_cwd options |}).1).
Proof.
  intros remove dev. unfold runNpm, runYarn, remove, dev. simpl.
  split_and!; [done| |].
  - by destruct (flag (run_remove options)), (flag (run_dev options)).
  - intros -> dev'. done.
Qed.

(** C7. The package arguments of the command of [install] are the packages
    that need an install, in order, each as [name@range] when the version
    mapping gives it a required range and as [name@latest] when it gives
    none. *)
Theorem install_versioned_arguments deps options newDeps :
  let versions := (requested deps options).2 in
  getUnsatisfiedDeps' (requested deps options).1 versions
    (dev_scope options) = Returned newDeps →
  newDeps ≠ [] →
  commands (install' deps options).1 =
    [ backend_command (uses_yarn project options) false (dev_scope options)
        (map (λ dep, match required_range versions dep with
                     | Some r => dep +:+ "@" +:+ r
                     | None => dep +:+ "@latest"
                     end) newDeps) ].
Proof.
  intros versions Hres Hne. rewrite install_run. fold versions. rewrite Hres.
  destruct (getUnsatisfiedDeps_inv _ _ _ _ _ _ _ Hres) as [Hvalid Hfilter].
  assert (∀ dep, dep ∈ newDeps →
            invalid_range validRange versions dep = false) as Hthrough.
  { intros dep Hdep. apply Hvalid. rewrite Hfilter in Hdep.
    by apply list_elem_of_filter in Hdep as [_ ?]. }
  clear Hres Hvalid Hfilter.
  destruct newDeps as [|dep newDeps]; [done|].
  cbn [commands omap list_omap fst]. do 2 f_equal.
  revert Hthrough. generalize (dep :: newDeps). clear dep newDeps Hne.
  intros l Hthrough. induction l as [|dep l IH]; [done|]. cbn [map].
  rewrite IH by (intros d Hd; apply Hthrough; by right). f_equal.
  eapply getVersionedDep_valid, Hthrough. by left.
Qed.

(** C8 (amended). The request is read as it is given: a single name is that
    one name, an array is its elements in order, repeated ones included, and
    a mapping is its keys, which are distinct. The packages that need an
    install are a subsequence of the requested names, so no name is among
    them more often than it was requested, and none twice when the requested
    names are distinct; the command gets one argument for each, in order. *)
Theorem request_names deps options :
  let dependencies := (requested deps options).1 in
  let versions := (requested deps options).2 in
  match deps with
  | DepName s => dependencies = [s] ∧ NoDup dependencies
  | DepList l => dependencies = l
  | DepVersions o => dependencies = Js.keys o ∧ NoDup dependencies
  | DepOther => dependencies = []
  end ∧
  ∀ newDeps,
    getUnsatisfiedDeps' dependencies versions (dev_scope options)
      = Returned newDeps →
    sublist newDeps dependencies ∧
    (NoDup dependencies → NoDup newDeps) ∧
    commands (install' deps options).1 =
      match newDeps with
      | [] => []
      | _ => [ backend_command (uses_yarn project options) false
                 (dev_scope options)
                 (map (λ dep, getVersionedDep dep versions) newDeps) ]
      end.
Proof.
  intros dependencies versions. split.
  - destruct deps as [s|l|o|]; simpl in *; try done.
    + split; [done|]. apply NoDup_singleton.
    + split; [done|]. unfold dependencies. simpl.
      apply (bool_decide_unpack _ (Js.entries_unique o)).
  - intros newDeps Hres.
    destruct (getUnsatisfiedDeps_inv _ _ _ _ _ _ _ Hres) as [_ ->].
    split_and!.
    + apply sublist_filter.
    + intros Hnodup. by apply NoDup_filter.
    + rewrite install_run. fold dependencies versions. rewrite Hres.
      by destruct (filter _ dependencies).
Qed.

(** C9. When [deps] is a mapping, [options.versions] is not read: the
    requested names are the keys of the mapping, the version mapping is the
    mapping itself, and the call does the same whatever [options.versions]
    is. The whole call is decided by the entries of the mapping, in their
    order: it throws for the first entry whose range is not empty and not a
    semver range; otherwise it installs the packages of the entries that are
    not installed, not declared, or installed outside the non-empty range of
    their entry, each as [name@range], or as [name@latest] when the range of
    its entry is empty. *)
Theorem install_mapping_ignores_versions_option o options versions' :
  let scope := dev_scope options in
  requested (DepVersions o) options = (Js.keys o, Js.props o) ∧
  (∀ k v, Js.props o !! k = Some v ↔ (k, v) ∈ Js.entries o) ∧
  install' (DepVersions o) options =
  install' (DepVersions o)
    {| dev := dev options; yarn := yarn options; versions := versions' |} ∧
  install' (DepVersions o) options =
    match List.find (entry_invalid validRange) (Js.entries o) with
    | Some e => ([], Thrown {| message := invalid_message e.2 |})
    | None =>
        match filter (λ e, entry_needs_install satisfies project scope e)
                (Js.entries o) with
        | [] => ([], Returned ())
        | es =>
            ([ LogInfo ("Installing " +:+ listify es.*1 +:+ "...");
               ExecCommand
                 (backend_command (uses_yarn project options) false scope
                    (map entry_argument es)) ],
             Returned ())
        end
    end.
Proof.
  intros scope. split_and!; [done| |by rewrite !install_run|].
  - intros k v. unfold Js.props. symmetry. apply elem_of_list_to_map.
    apply (bool_decide_unpack _ (Js.entries_unique o)).
  - rewrite install_run. cbn [requested fst snd]. fold scope.
    unfold getUnsatisfiedDeps, Js.keys.
    rewrite (filterR_entries validRange satisfies project (Js.props o) scope
               (Js.entries o))
      by (intros [k v] He; by apply props_entry).
    destruct (List.find _ (Js.entries o)); [done|].
    set (es := filter (λ e, entry_needs_install satisfies project scope e)
                 (Js.entries o)).
    assert (∀ e, e ∈ es → Js.props o !! e.1 = Some e.2) as Hget.
    { intros [k v] [_ He]%list_elem_of_filter. by apply props_entry. }
    rewrite (entry_argument_get (Js.props o) es Hget).
    clearbody es. by destruct es.
Qed.

(** X19. A package whose own entry in the version mapping is the empty
    string is handled as one with no required range. The check of that
    package does not throw; the package needs an install iff its installed
    version is missing or empty or reading its name in the active section of
    the manifest gives nothing or the empty string; and its argument on the
    command line is [name@latest]. *)
Theorem empty_range_is_no_range versions dev dep :
  versions !! dep = Some "" →
  required_range versions dep = None ∧
  unsatisfied validRange satisfies project
    (getOwnDependencies project dev) versions dep =
    Returned (negb (installed project dep) || negb (declared project dev dep)) ∧
  (negb (installed project dep) || negb (declared project dev dep) = true ↔
     (getInstalledVersion project dep = None ∨
      getInstalledVersion project dep = Some "") ∨
     ((getOwnDependencies project dev !! dep = None ∧
       dep ∉ Js.prototype_members) ∨
      getOwnDependencies project dev !! dep = Some "")) ∧
  (∀ deps newDeps,
     getUnsatisfiedDeps' deps versions dev = Returned newDeps →
     (dep ∈ newDeps ↔
      dep ∈ deps ∧
      (negb (installed project dep) || negb (declared project dev dep)) = true)) ∧
  getVersionedDep dep versions = dep +:+ "@latest".
Proof.
  clear listify.
  intros Hblank.
  assert (required_range versions dep = None) as Hnone
    by (apply required_range_None; by right).
  assert (needs_install satisfies project versions dev dep =
          negb (installed project dep) || negb (declared project dev dep))
    as Hneeds.
  { unfold needs_install. rewrite Hnone. apply orb_false_r. }
  assert (invalid_range validRange versions dep = false) as Hthrough.
  { unfold invalid_range. by rewrite (get_own _ _ _ Hblank). }
  split_and!.
  - done.
  - by rewrite unsatisfied_cases, Hthrough, Hneeds.
  - unfold installed, declared.
    by rewrite orb_true_iff, !negb_true_iff, !truthy_false, get_falsy.
  - intros deps newDeps Hres.
    destruct (getUnsatisfiedDeps_inv _ _ _ _ _ _ _ Hres) as [_ ->].
    rewrite list_elem_of_filter, Is_true_true, Hneeds. tauto.
  - by rewrite (getVersionedDep_valid validRange), Hnone.
Qed.

End CommandLine.

(** ** The scenarios, run *)

Section Runs.

Import Scenario.

Abbreviation npm_command verb scope packages :=
  {| program := "npm"; args := verb :: scope :: packages;
     stdio := Inherit; cwd := None |}.

(** [install({ lodash: '^4.0.0' })] with no [lodash] installed. *)
Example install_lodash_missing :
  Reference.getUnsatisfiedDeps fresh_project ["lodash"] (Js.props lodash_4)
    true = Returned ["lodash"] ∧
  Reference.install fresh_project (DepVersions lodash_4) no_options =
    ([ LogInfo "Installing lodash...";
       ExecCommand (npm_command "install" "--save-dev" ["lodash@^4.0.0"]) ],
     Returned ()).
Proof. split; vm_compute; reflexivity. Qed.

(** [install('chalk')] with [chalk] declared and installed. *)
Example install_chalk_settled :
  Reference.install settled_project (DepName "chalk") no_options =
    ([], Returned ()).
Proof. vm_compute; reflexivity. Qed.

(** [install({ lodash: '^1.2.0' })] with [lodash] at [1.2.5], then at
    [1.1.0]. *)
Example install_lodash_range :
  Reference.getUnsatisfiedDeps settled_project ["lodash"]
    (Js.props lodash_1_2) true = Returned [] ∧
  Reference.getUnsatisfiedDeps outdated_project ["lodash"]
    (Js.props lodash_1_2) true = Returned ["lodash"].
Proof. split; vm_compute; reflexivity. Qed.

(** [uninstall(['unused-pkg'])] with [unused-pkg] not in the manifest. *)
Example uninstall_unused :
  Reference.uninstall settled_project (ManyNames ["unused-pkg"]) no_options =
    ([], Returned ()).
Proof. vm_compute; reflexivity. Qed.

(** With a [yarn.lock], the verbs are yarn's. *)
Example yarn_verbs :
  args <$> commands
    (Reference.uninstall yarn_project (OneName "chalk") no_options).1 =
    [["remove"; "chalk"]] ∧
  args <$> commands
    (Reference.install yarn_project (DepName "left-pad") no_options).1 =
    [["add"; "--dev"; "left-pad@latest"]].
Proof. split; vm_compute; reflexivity. Qed.

(** C1. On [blank_project] the code departs from the claim: [foo] is
    installed, is a key of the development section and has no required
    range, and [getUnsatisfiedDeps] returns it, through the branch the source
    comments as "Module is installed but not in package.json
    dependencies". *)
Lemma unsatisfied_deps_declared_blank :
  Reference.getUnsatisfiedDeps blank_project ["foo"] ∅ true
    = Returned ["foo"] ∧
  ¬ (getInstalledVersion blank_project "foo" = None ∨
     getOwnDependencies blank_project true !! "foo" = None ∨
     ∃ v r, getInstalledVersion blank_project "foo" = Some v ∧
            (∅ : gmap string string) !! "foo" = Some r ∧
            Reference.satisfies v r = false).
Proof.
  split; [vm_compute; reflexivity|].
  intros [H|[H|(v & r & _ & H & _)]]; vm_compute in H; discriminate.
Qed.

(** C2. The claim as worded fails on the message: [foo] has the non-empty
    invalid range [bogus], and the error thrown is not
    "Invalid version: <range>. Use proper semver range syntax." for any
    range. *)
Lemma install_invalid_range_message :
  Js.props foo_bogus !! "foo" = Some "bogus" ∧
  Reference.validRange "bogus" = false ∧
  ¬ ∃ tr r,
      Reference.install fresh_project (DepVersions foo_bogus) no_options =
      (tr, Thrown {| message :=
         "Invalid version: " +:+ r +:+ ". Use proper semver range syntax." |}).
Proof.
  split_and!; [vm_compute; reflexivity..|].
  intros (tr & r & H). vm_compute in H. discriminate.
Qed.

(** C3. On [blank_project] the code departs from the claim: [foo] is a key
    of the development section, is installed and has no required range, and
    [install('foo')] runs a command. *)
Lemma install_declared_blank_runs :
  getOwnDependencies blank_project true !! "foo" = Some "" ∧
  getInstalledVersion blank_project "foo" = Some "1.0.0" ∧
  (requested (DepName "foo") no_options).2 !! "foo" = None ∧
  Reference.getUnsatisfiedDeps blank_project ["foo"]
    (requested (DepName "foo") no_options).2 true = Returned ["foo"] ∧
  commands (Reference.install blank_project (DepName "foo") no_options).1 =
    [ npm_command "install" "--save-dev" ["foo@latest"] ].
Proof. split_and!; vm_compute; reflexivity. Qed.

(** C4. On [blank_project] the code departs from the claim: [foo] is a key
    of the development section, and [uninstall('foo')] skips it and runs
    nothing. *)
Lemma uninstall_declared_blank_skipped :
  getOwnDependencies blank_project true !! "foo" = Some "" ∧
  Reference.uninstall blank_project (OneName "foo") no_options =
    ([], Returned ()).
Proof. split; vm_compute; reflexivity. Qed.

(** C6. The claim as worded fails for npm: the command of [uninstall('chalk')]
    carries the scope flag. *)
Lemma npm_uninstall_has_scope_flag :
  commands (Reference.uninstall settled_project (OneName "chalk") no_options).1
    = [ npm_command "uninstall" "--save-dev" ["chalk"] ] ∧
  "--save-dev" ∈ args (npm_command "uninstall" "--save-dev" ["chalk"]).
Proof.
  split; [vm_compute; reflexivity|]. simpl. apply elem_of_cons. right.
  apply elem_of_cons. by left.
Qed.

(** C8. The claim as worded fails for an array that repeats a name: the
    name is twice among the packages that need an install and twice on the
    command line. *)
Lemma install_repeated_name :
  Reference.getUnsatisfiedDeps fresh_project
    (requested (DepList ["a"; "a"]) no_options).1
    (requested (DepList ["a"; "a"]) no_options).2 true
    = Returned ["a"; "a"] ∧
  commands
    (Reference.install fresh_project (DepList ["a"; "a"]) no_options).1 =
    [ npm_command "install" "--save-dev" ["a@latest"; "a@latest"] ] ∧
  ¬ NoDup ["a"; "a"] ∧ ¬ NoDup ["a@latest"; "a@latest"].
Proof.
  split_and!; [vm_compute; reflexivity..| |];
    intros [H _]%NoDup_cons; apply H; by left.
Qed.

(** C10. On [blank_project] the code departs from the claim: with the empty
    range for [foo], [foo] is returned although it is installed and is a key
    of the development section. *)
Lemma blank_range_declared_blank_included :
  Js.props foo_blank !! "foo" = Some "" ∧
  Reference.getUnsatisfiedDeps blank_project ["foo"] (Js.props foo_blank) true
    = Returned ["foo"] ∧
  ¬ (getInstalledVersion blank_project "foo" = None ∨
     getOwnDependencies blank_project true !! "foo" = None).
Proof.
  split_and!; [vm_compute; reflexivity..|].
  intros [H|H]; vm_compute in H; discriminate.
Qed.

(** A requested name that objects inherit and that the version mapping does
    not hold: [install('constructor')] throws for the inherited function. *)
Example install_constructor_throws :
  Reference.install fresh_project (DepName "constructor") no_options =
    ([], Thrown {| message :=
       "Invalid npm version: function Object() { [native code] }. " +:+
       "Use proper semver range syntax." |}).
Proof. vm_compute; reflexivity. Qed.

(** The same name comes first in the request: the error is for it, not for
    the invalid range that follows. *)
Example install_constructor_first :
  Reference.install fresh_project (DepList ["constructor"; "foo"])
    {| dev := None; yarn := None;
       versions := Some {[ "foo" := "bogus" ]} |} =
    ([], Thrown {| message :=
       "Invalid npm version: function Object() { [native code] }. " +:+
       "Use proper semver range syntax." |}).
Proof. vm_compute; reflexivity. Qed.

(** [uninstall('constructor')] with nothing declared reads the inherited
    function as a declaration and runs [npm uninstall]. *)
Example uninstall_constructor_runs :
  Reference.uninstall fresh_project (OneName "constructor") no_options =
    ([ LogInfo "Uninstalling constructor...";
       ExecCommand (npm_command "uninstall" "--save-dev" ["constructor"]) ],
     Returned ()).
Proof. vm_compute; reflexivity. Qed.

(** [install({ constructor: '^1.0.0' })] with [constructor] installed at
    [1.2.0] and not declared: the inherited function reads as a declaration
    and nothing is run. *)
Example install_constructor_undeclared :
  Reference.install constructor_project (DepVersions constructor_1) no_options
    = ([], Returned ()).
Proof. vm_compute; reflexivity. Qed.

(** [getVersionedDep('toString', {})] *)
Example versioned_toString :
  getVersionedDep "toString" ∅ =
    "toString@function toString() { [native code] }".
Proof. vm_compute; reflexivity. Qed.

End Runs.

(** ** The theorems at the scenarios *)

(** A name written out is not a member that objects inherit: by
    evaluation. *)
Ltac not_inherited :=
  let Hin := fresh "Hin" in
  intros Hin; apply (bool_decide_pack _) in Hin; vm_compute in Hin; exact Hin.

(** Validation lets through a name written out that has no entry in a
    version mapping written out. *)
Ltac no_range :=
  split;
  [ let r := fresh "r" in
    let Hr := fresh "Hr" in
    intros r Hr; vm_compute in Hr; discriminate Hr
  | intros _; not_inherited ].

Section Instances.

Import Scenario.

(** [unsatisfied_deps_exact] on the outdated project: of [chalk] and
    [lodash], requested with [^1.2.0] for [lodash], only [lodash] needs an
    install. *)
Lemma unsatisfied_deps_exact_outdated :
  (∀ dep, dep ∈ ["chalk"; "lodash"] →
     (∀ r, Js.props lodash_1_2 !! dep = Some r → r ≠ "" →
           Reference.validRange r = true) ∧
     (Js.props lodash_1_2 !! dep = None → dep ∉ Js.prototype_members)) ∧
  getUnsatisfiedDeps Reference.validRange Reference.satisfies outdated_project
    ["chalk"; "lodash"] (Js.props lodash_1_2) true = Returned ["lodash"].
Proof.
  assert (∀ dep, dep ∈ ["chalk"; "lodash"] →
     (∀ r, Js.props lodash_1_2 !! dep = Some r → r ≠ "" →
           Reference.validRange r = true) ∧
     (Js.props lodash_1_2 !! dep = None → dep ∉ Js.prototype_members))
    as Hvalid.
  { intros dep [->|Hdep]%elem_of_cons.
    - split; [intros r Hr; vm_compute in Hr; discriminate|].
      intros _. not_inherited.
    - apply list_elem_of_singleton in Hdep as ->. split.
      + intros r Hr _. vm_compute in Hr. injection Hr as <-.
        vm_compute; reflexivity.
      + intros Hnone. vm_compute in Hnone. discriminate. }
  split; [exact Hvalid|].
  destruct (unsatisfied_deps_exact Reference.validRange Reference.satisfies
              outdated_project ["chalk"; "lodash"] (Js.props lodash_1_2) true
              Hvalid) as (newDeps & Hres & Hfilter & _).
  rewrite Hres, Hfilter. vm_compute; reflexivity.
Defined.

(** [install_invalid_range_throws] on [install({ foo: 'bogus' })]. *)
Lemma install_invalid_range_throws_bogus :
  (∃ dep r, dep ∈ (requested (DepVersions foo_bogus) no_options).1 ∧
            (requested (DepVersions foo_bogus) no_options).2 !! dep = Some r ∧
            r ≠ "" ∧ Reference.validRange r = false) ∧
  ∃ x,
    install Reference.validRange Reference.satisfies Reference.listify
      fresh_project (DepVersions foo_bogus) no_options =
      ([], Thrown {| message :=
         "Invalid npm version: " +:+ x +:+
         ". Use proper semver range syntax." |}) ∧
    ((∀ dep, dep ∈ (requested (DepVersions foo_bogus) no_options).1 →
        (requested (DepVersions foo_bogus) no_options).2 !! dep = None →
        dep ∉ Js.prototype_members) →
     ∃ dep, dep ∈ (requested (DepVersions foo_bogus) no_options).1 ∧
            (requested (DepVersions foo_bogus) no_options).2 !! dep = Some x ∧
            x ≠ "" ∧ Reference.validRange x = false).
Proof.
  assert (∃ dep r, dep ∈ (requested (DepVersions foo_bogus) no_options).1 ∧
            (requested (DepVersions foo_bogus) no_options).2 !! dep = Some r ∧
            r ≠ "" ∧ Reference.validRange r = false) as Hbad.
  { exists "foo", "bogus". split_and!.
    - apply list_elem_of_singleton. reflexivity.
    - vm_compute; reflexivity.
    - discriminate.
    - vm_compute; reflexivity. }
  split; [exact Hbad|].
  exact (install_invalid_range_throws Reference.validRange Reference.satisfies
           Reference.listify fresh_project (DepVersions foo_bogus) no_options
           Hbad).
Defined.

(** [install_versioned_arguments] on [install({ lodash: '^4.0.0' })] with no
    [lodash] installed: the command line has [lodash@^4.0.0]. *)
Lemma install_versioned_arguments_lodash :
  getUnsatisfiedDeps Reference.validRange Reference.satisfies fresh_project
    (requested (DepVersions lodash_4) no_options).1
    (requested (DepVersions lodash_4) no_options).2
    (dev_scope no_options) = Returned ["lodash"] ∧
  ["lodash"] ≠ [] ∧
  commands
    (install Reference.validRange Reference.satisfies Reference.listify
       fresh_project (DepVersions lodash_4) no_options).1 =
    [ {| program := "npm";
         args := ["install"; "--save-dev"; "lodash@^4.0.0"];
         stdio := Inherit; cwd := None |} ].
Proof.
  assert (getUnsatisfiedDeps Reference.validRange Reference.satisfies
    fresh_project
    (requested (DepVersions lodash_4) no_options).1
    (requested (DepVersions lodash_4) no_options).2
    (dev_scope no_options) = Returned ["lodash"]) as Hres
    by (vm_compute; reflexivity).
  assert (["lodash"] ≠ []) as Hne by discriminate.
  split_and!; [exact Hres|exact Hne|].
  rewrite (install_versioned_arguments Reference.validRange
             Reference.satisfies Reference.listify fresh_project
             (DepVersions lodash_4) no_options ["lodash"] Hres Hne).
  vm_compute; reflexivity.
Defined.

(** [empty_range_is_no_range] on [{ chalk: '' }] in the settled project,
    where [chalk] is installed and declared: it needs no install. *)
Lemma empty_range_is_no_range_chalk :
  Js.props chalk_blank !! "chalk" = Some "" ∧
  unsatisfied Reference.validRange Reference.satisfies settled_project
    (getOwnDependencies settled_project true) (Js.props chalk_blank) "chalk"
    = Returned false ∧
  getVersionedDep "chalk" (Js.props chalk_blank) = "chalk@latest".
Proof.
  assert (Js.props chalk_blank !! "chalk" = Some "") as Hblank
    by (vm_compute; reflexivity).
  destruct (empty_range_is_no_range Reference.validRange Reference.satisfies
              settled_project (Js.props chalk_blank) true "chalk" Hblank)
    as (_ & Hcheck & _ & _ & Harg).
  split_and!; [exact Hblank| |exact Harg].
  rewrite Hcheck. vm_compute; reflexivity.
Defined.

End Instances.

(** ** Further properties of the install path *)

Section InstallMore.

Variable validRange : string -> bool.
Variable satisfies : string -> string -> bool.
Variable listify : list string -> string.
Variable project : Project.

Abbreviation check' := (unsatisfied validRange satisfies project).
Abbreviation unsatisfiedDeps' :=
  (getUnsatisfiedDeps validRange satisfies project).
Abbreviation installs' := (install validRange satisfies listify project).

(** The filter over two lists, one after the other. *)
Lemma filterR_app (f : string → Result bool) l1 l2 :
  filterR f (l1 ++ l2)%list =
  bindR (filterR f l1) (λ r1,
  bindR (filterR f l2) (λ r2, Returned (r1 ++ r2)%list)).
Proof.
  induction l1 as [|x l1 IH]; simpl.
  - by destruct (filterR f l2).
  - destruct (f x) as [keep|e]; simpl; [|done]. rewrite IH.
    destruct (filterR f l1) as [r1|e]; simpl; [|done].
    destruct (filterR f l2) as [r2|e]; simpl; [|done].
    by destruct keep.
Qed.

(** The filter sees its callback only at the elements of the list. *)
Lemma filterR_ext (f g : string → Result bool) l :
  (∀ x, x ∈ l → f x = g x) → filterR f l = filterR g l.
Proof.
  induction l as [|x l IH]; intros Hfg; [done|]. simpl.
  rewrite (Hfg x) by left. rewrite IH; [done|].
  intros y Hy. apply Hfg. by right.
Qed.

(** X1. The first name at which validation stops, in request order, decides
    the error: when validation lets the requested names before [dep] through
    and [dep] has the non-empty invalid range [r], [install] throws the error
    for [r] having done nothing, whatever follows [dep] in the request.
    Validation lets a name through when its own range, if not empty, is a
    semver range, and when a name without a range of its own is not the name
    of a member that objects inherit. *)
Theorem install_first_invalid_range deps options l1 dep l2 r :
  (requested deps options).1 = (l1 ++ dep :: l2)%list →
  (∀ d, d ∈ l1 →
     (∀ r', (requested deps options).2 !! d = Some r' → r' ≠ "" →
            validRange r' = true) ∧
     ((requested deps options).2 !! d = None → d ∉ Js.prototype_members)) →
  (requested deps options).2 !! dep = Some r →
  r ≠ "" →
  validRange r = false →
  installs' deps options =
    ([], Thrown {| message :=
       "Invalid npm version: " +:+ r +:+
       ". Use proper semver range syntax." |}).
Proof.
  intros Hsplit Hbefore Hr Hne Hbad.
  rewrite install_run. unfold getUnsatisfiedDeps. rewrite Hsplit, filterR_app.
  rewrite (filterR_returned _
    (needs_install satisfies project (requested deps options).2
       (dev_scope options))).
  - simpl. rewrite unsatisfied_cases.
    rewrite (proj2 (invalid_range_true_iff validRange _ dep))
      by (left; by exists r).
    by rewrite (get_own _ _ _ Hr).
  - intros d Hd. rewrite unsatisfied_cases.
    by rewrite (proj2 (invalid_range_false_iff validRange _ d) (Hbefore d Hd)).
Qed.

(** X2. [getUnsatisfiedDeps] is local to the requested names: two version
    mappings and two projects that agree, at every requested name, on the
    range, on the installed version and on the entry of the active section
    of the manifest give the same result, thrown errors included. So a range
    given for a package that is not requested is never validated, and
    packages outside the request are never inspected. *)
Theorem getUnsatisfiedDeps_local project' deps versions versions' dev :
  (∀ dep, dep ∈ deps →
     versions !! dep = versions' !! dep ∧
     getInstalledVersion project dep = getInstalledVersion project' dep ∧
     getOwnDependencies project dev !! dep =
       getOwnDependencies project' dev !! dep) →
  unsatisfiedDeps' deps versions dev =
  getUnsatisfiedDeps validRange satisfies project' deps versions' dev.
Proof.
  intros Hagree. unfold getUnsatisfiedDeps. apply filterR_ext.
  intros dep Hdep. destruct (Hagree dep Hdep) as (Hv & Hi & Ho).
  unfold unsatisfied, Js.get. by rewrite Hv, Hi, Ho.
Qed.

(** X3. [getUnsatisfiedDeps] on a request in two parts is its result on the
    first part followed by its result on the second; an error of the first
    part comes before an error of the second. *)
Theorem getUnsatisfiedDeps_app l1 l2 versions dev :
  getUnsatisfiedDeps validRange satisfies project (l1 ++ l2)%list versions dev
  =
  match getUnsatisfiedDeps validRange satisfies project l1 versions dev with
  | Thrown e => Thrown e
  | Returned r1 =>
      match getUnsatisfiedDeps validRange satisfies project l2 versions dev
      with
      | Thrown e => Thrown e
      | Returned r2 => Returned (r1 ++ r2)%list
      end
  end.
Proof. unfold getUnsatisfiedDeps. apply filterR_app. Qed.

(** X4. The result of [getUnsatisfiedDeps] is stable: asked again about the
    packages it returned, it returns them all. *)
Theorem getUnsatisfiedDeps_idempotent deps versions dev newDeps :
  getUnsatisfiedDeps validRange satisfies project deps versions dev
    = Returned newDeps →
  getUnsatisfiedDeps validRange satisfies project newDeps versions dev
    = Returned newDeps.
Proof.
  intros Hres.
  destruct (getUnsatisfiedDeps_inv _ _ _ _ _ _ _ Hres) as [Hvalid ->].
  rewrite getUnsatisfiedDeps_returned.
  - f_equal. apply list_filter_filter_r. auto.
  - intros dep [_ Hdep]%list_elem_of_filter. by apply Hvalid.
Qed.

(** A thrown filter stopped at an element on which the callback threw. *)
Lemma filterR_thrown_inv (f : string → Result bool) l e :
  filterR f l = Thrown e → ∃ x, x ∈ l ∧ f x = Thrown e.
Proof.
  induction l as [|y l IH]; [done|]. simpl.
  destruct (f y) as [keep|e'] eqn:Hfy; simpl.
  - destruct (filterR f l) as [rest|e'] eqn:Hrest; simpl; [done|].
    intros [= ->]. destruct IH as (x & Hx & Hfx); [done|].
    exists x. split; [by right|done].
  - intros [= ->]. exists y. split; [by left|done].
Qed.

(** X5. [install] throws its invalid-range error exactly when validation
    stops at a requested name: one whose own range is not empty and not a
    semver range, or one without a range of its own that is the name of a
    member that objects inherit, like [constructor]. The error comes before
    any log line or command. *)
Theorem install_throws_iff deps options :
  (∃ e, installs' deps options = ([], Thrown e)) ↔
  ∃ dep, dep ∈ (requested deps options).1 ∧
    ((∃ r, (requested deps options).2 !! dep = Some r ∧
           r ≠ "" ∧ validRange r = false) ∨
     ((requested deps options).2 !! dep = None ∧
      dep ∈ Js.prototype_members)).
Proof.
  rewrite install_run. split.
  - intros [e He].
    destruct (getUnsatisfiedDeps _ _ _ _ _ _) as [newDeps|e'] eqn:Hres.
    { by destruct newDeps. }
    destruct (filterR_thrown_inv _ _ _ Hres) as (dep & Hdep & Hthrow).
    exists dep. split; [done|]. apply invalid_range_true_iff.
    rewrite unsatisfied_cases in Hthrow.
    by destruct (invalid_range validRange _ dep).
  - intros (dep & Hdep & Hcase).
    destruct (getUnsatisfiedDeps_thrown validRange satisfies project
                (requested deps options).1 (requested deps options).2
                (dev_scope options)) as (dep' & _ & _ & ->).
    { exists dep. split; [done|]. by apply invalid_range_true_iff. }
    by eexists.
Qed.

End InstallMore.

(** ** Further properties of the two operations *)

Section Operations.

Variable validRange : string -> bool.
Variable satisfies : string -> string -> bool.
Variable listify : list string -> string.
Variable project : Project.

Abbreviation inst' := (install validRange satisfies listify project).
Abbreviation uninst' := (uninstall listify project).

(** X6. When validation lets every requested name through, [install] does
    nothing exactly when no requested package needs an install; otherwise
    what it does is one log line followed by one command. *)
Theorem install_acts_iff deps options :
  (∀ dep, dep ∈ (requested deps options).1 →
     (∀ r, (requested deps options).2 !! dep = Some r → r ≠ "" →
           validRange r = true) ∧
     ((requested deps options).2 !! dep = None →
      dep ∉ Js.prototype_members)) →
  ((inst' deps options).1 = [] ↔
   ∀ dep, dep ∈ (requested deps options).1 →
     needs_install satisfies project (requested deps options).2
       (dev_scope options) dep = false) ∧
  ((inst' deps options).1 = [] ∨
   ∃ msg c, (inst' deps options).1 = [LogInfo msg; ExecCommand c]).
Proof.
  intros Hthrough.
  assert (∀ dep, dep ∈ (requested deps options).1 →
     invalid_range validRange (requested deps options).2 dep = false)
    as Hvalid
    by (intros dep Hdep; apply invalid_range_false_iff; by apply Hthrough).
  rewrite install_run, getUnsatisfiedDeps_returned by done.
  destruct (filter _ _) as [|dep newDeps] eqn:Hfilter; simpl.
  - split; [|by left]. split; [|done]. intros _ dep Hdep.
    destruct (needs_install _ _ _ _ dep) eqn:Hneeds; [|done].
    assert (dep ∈ filter
      (λ dep, needs_install satisfies project (requested deps options).2
                (dev_scope options) dep) (requested deps options).1) as Hin
      by (apply list_elem_of_filter; by rewrite Hneeds).
    rewrite Hfilter in Hin. by apply elem_of_nil in Hin.
  - split; [|right; eauto]. split; [done|]. intros Hnone.
    assert (dep ∈ dep :: newDeps) as Hin by left.
    rewrite <- Hfilter in Hin. apply list_elem_of_filter in Hin as [Hneeds Hdep].
    rewrite (Hnone dep Hdep) in Hneeds. done.
Qed.

(** X7. [uninstall] reads the manifest only: it never throws, whatever ranges
    [options.versions] holds, and what it does is the same whatever is
    installed under [node_modules]. *)
Theorem uninstall_reads_manifest_only names options modules versions' :
  (uninst' names options).2 = Returned () ∧
  uninstall listify
    {| pkg_dependencies := pkg_dependencies project;
       pkg_devDependencies := pkg_devDependencies project;
       node_modules := modules;
       yarn_lock := yarn_lock project |}
    names
    {| dev := dev options; yarn := yarn options; versions := versions' |} =
  uninst' names options.
Proof.
  split.
  - rewrite uninstall_run. by destruct (filter _ _).
  - by rewrite !uninstall_run.
Qed.

(** X8. Each call reads one section of the manifest: [devDependencies]
    unless [options.dev] is [false], [dependencies] when it is. Replacing the
    other section changes neither [install] nor [uninstall]. *)
Theorem other_section_not_read deps names options other :
  let project' :=
    if dev_scope options then
      {| pkg_dependencies := other;
         pkg_devDependencies := pkg_devDependencies project;
         node_modules := node_modules project;
         yarn_lock := yarn_lock project |}
    else
      {| pkg_dependencies := pkg_dependencies project;
         pkg_devDependencies := other;
         node_modules := node_modules project;
         yarn_lock := yarn_lock project |} in
  install validRange satisfies listify project' deps options =
    inst' deps options ∧
  uninstall listify project' names options = uninst' names options.
Proof.
  intros project'.
  assert (getOwnDependencies project' (dev_scope options) =
          getOwnDependencies project (dev_scope options)) as Hown
    by (unfold project', getOwnDependencies; by destruct (dev_scope options)).
  assert (uses_yarn project' options = uses_yarn project options) as Hyarn
    by (unfold project', uses_yarn; by destruct (dev_scope options)).
  split.
  - rewrite !install_run, Hyarn.
    rewrite (getUnsatisfiedDeps_local validRange satisfies project' project
               _ (requested deps options).2 (requested deps options).2);
      [done|].
    intros dep _. rewrite Hown. split_and!; [done| |done].
    unfold project', getInstalledVersion. by destruct (dev_scope options).
  - rewrite !uninstall_run, Hyarn. unfold declared. by rewrite Hown.
Qed.

(** X9. The version after the [@] of a package argument is never empty: it
    is the package's own entry of the version mapping when that is a
    non-empty string; for a name without an entry of its own that objects
    inherit, the text of the inherited member; and [latest] in every other
    case. *)
Theorem versioned_dep_suffix dep versions :
  ∃ v, getVersionedDep dep versions = dep +:+ "@" +:+ v ∧
       v ≠ "" ∧
       (versions !! dep = Some v ∨
        (versions !! dep = None ∧ dep ∈ Js.prototype_members ∧
         v = Js.to_string (Js.Inherited dep)) ∨
        (v = "latest" ∧
         (versions !! dep = Some "" ∨
          (versions !! dep = None ∧ dep ∉ Js.prototype_members)))).
Proof.
  unfold getVersionedDep, Js.or_else, Js.get.
  destruct (versions !! dep) as [r|] eqn:Hr; simpl.
  - destruct (Js.str_truthy r) eqn:Htruthy; simpl.
    + exists r. apply str_truthy_true in Htruthy. auto.
    + exists "latest". apply str_truthy_false in Htruthy. subst r.
      split_and!; [done|done|]. right; right. auto.
  - case_bool_decide as Hmember; simpl.
    + eexists. split; [done|]. split; [|right; left; done].
      repeat case_bool_decide; done.
    + exists "latest". split_and!; [done|done|]. right; right. auto.
Qed.

(** X10. The three shapes of [deps] are one request: a single name is the
    array of that name, and a mapping is the array of its keys together with
    the mapping given as [options.versions]. For [uninstall] a single name is
    the array of that name. *)
Theorem request_shapes s o options :
  inst' (DepName s) options = inst' (DepList [s]) options ∧
  inst' (DepVersions o) options =
    inst' (DepList (Js.keys o))
      {| dev := dev options; yarn := yarn options;
         versions := Some (Js.props o) |} ∧
  uninst' (OneName s) options = uninst' (ManyNames [s]) options.
Proof. split_and!; [done| |done]. by rewrite !install_run. Qed.

(** X11. An empty request does nothing and reads nothing: [install] of the
    empty array, of the empty mapping or of a value that is no string, array
    or object, and [uninstall] of the empty array, return without a log line
    or a command, and without an error even when [options.versions] holds
    invalid ranges. *)
Theorem empty_request options :
  install validRange satisfies listify project (DepList []) options
    = ([], Returned ()) ∧
  install validRange satisfies listify project
    (DepVersions {| Js.entries := []; Js.entries_unique := I |}) options
    = ([], Returned ()) ∧
  install validRange satisfies listify project DepOther options
    = ([], Returned ()) ∧
  uninstall listify project (ManyNames []) options = ([], Returned ()).
Proof. split_and!; reflexivity. Qed.

End Operations.

(** ** Requests with and without ranges *)

Section Ranges.

Variable validRange : string -> bool.
Variable satisfies : string -> string -> bool.
Variable listify : list string -> string.
Variable project : Project.

Abbreviation inst'' := (install validRange satisfies listify project).

(** X12. Without a version mapping, and when no requested name is the name
    of a member that objects inherit, [install] does not throw and never
    asks semver: the packages of the array that are not installed or not
    declared are installed, each as [name@latest]; with none of those nothing
    is done. *)
Theorem install_without_versions l options :
  versions options = None →
  (∀ dep, dep ∈ l → dep ∉ Js.prototype_members) →
  inst'' (DepList l) options =
  match filter (λ dep, negb (installed project dep) ||
                       negb (declared project (dev_scope options) dep)) l with
  | [] => ([], Returned ())
  | newDeps =>
      ([ LogInfo ("Installing " +:+ listify newDeps +:+ "...");
         ExecCommand
           (backend_command (uses_yarn project options) false
              (dev_scope options)
              (map (λ dep, dep +:+ "@latest") newDeps)) ],
       Returned ())
  end.
Proof.
  intros Hnone Hplain. rewrite install_run. unfold requested. rewrite Hnone.
  cbn [default fst snd].
  assert (∀ dep, dep ∈ l → invalid_range validRange ∅ dep = false) as Hvalid.
  { intros dep Hdep. apply invalid_range_false_iff.
    split; [by intros r; rewrite lookup_empty|]. intros _. by apply Hplain. }
  rewrite getUnsatisfiedDeps_returned by done.
  assert (∀ dep, needs_install satisfies project ∅ (dev_scope options) dep
            = negb (installed project dep) ||
              negb (declared project (dev_scope options) dep)) as Hneeds.
  { intros dep. unfold needs_install, required_range.
    rewrite lookup_empty. apply orb_false_r. }
  rewrite (list_filter_iff _
    (λ dep, negb (installed project dep) ||
            negb (declared project (dev_scope options) dep)))
    by (intros dep; by rewrite Hneeds).
  set (newDeps := filter _ l).
  assert (∀ dep, dep ∈ newDeps → dep ∈ l) as Hsub
    by (intros dep [_ ?]%list_elem_of_filter; done).
  assert (map (λ dep, getVersionedDep dep ∅) newDeps =
          map (λ dep, dep +:+ "@latest") newDeps) as ->.
  { clearbody newDeps. induction newDeps as [|dep newDeps IH]; [done|].
    cbn [map]. rewrite IH by (intros d Hd; apply Hsub; by right). f_equal.
    rewrite (getVersionedDep_valid validRange)
      by (apply Hvalid, Hsub; by left).
    unfold required_range. by rewrite lookup_empty. }
  clearbody newDeps. by destruct newDeps.
Qed.

(** X13. On an installed package without a required range, [install] and
    [uninstall] look at the same thing, its entry in the active section of
    the manifest: [install] takes the package up exactly when [uninstall] of
    it would do nothing. *)
Theorem install_uninstall_complement deps options newDeps dep :
  getUnsatisfiedDeps validRange satisfies project (requested deps options).1
    (requested deps options).2 (dev_scope options) = Returned newDeps →
  dep ∈ (requested deps options).1 →
  (∃ v, getInstalledVersion project dep = Some v ∧ v ≠ "") →
  ((requested deps options).2 !! dep = None ∨
   (requested deps options).2 !! dep = Some "") →
  (dep ∈ newDeps ↔
   uninstall listify project (OneName dep) options = ([], Returned ())).
Proof.
  intros Hres Hdep Hinstalled Hrange.
  destruct (getUnsatisfiedDeps_inv _ _ _ _ _ _ _ Hres) as [_ ->].
  rewrite list_elem_of_filter, uninstall_run. simpl.
  assert (needs_install satisfies project (requested deps options).2
            (dev_scope options) dep =
          negb (declared project (dev_scope options) dep)) as ->.
  { unfold needs_install, installed.
    rewrite (proj2 (truthy_true _) Hinstalled).
    rewrite (proj2 (required_range_None _ _) Hrange). simpl.
    apply orb_false_r. }
  rewrite filter_cons, filter_nil.
  destruct (declared project (dev_scope options) dep); simpl.
  - split; [by intros [[] _]|done].
  - split; [done|]. by intros _.
Qed.

(** X14. A mapping whose ranges are all non-empty semver ranges is installed
    entry by entry: the command has, in the order of the mapping, the
    argument [name@range] of every entry whose package needs an install, and
    there is no command when no entry does. *)
Theorem install_mapping_arguments o options :
  (∀ k v, (k, v) ∈ Js.entries o → v ≠ "" ∧ validRange v = true) →
  commands (inst'' (DepVersions o) options).1 =
  match filter (λ e, needs_install satisfies project (Js.props o)
                       (dev_scope options) e.1) (Js.entries o) with
  | [] => []
  | es =>
      [ backend_command (uses_yarn project options) false (dev_scope options)
          (map (λ e, e.1 +:+ "@" +:+ e.2) es) ]
  end.
Proof.
  intros Hranges.
  rewrite install_run. cbn [requested fst snd].
  rewrite getUnsatisfiedDeps_returned.
  - unfold Js.keys.
    rewrite (filter_keys
      (needs_install satisfies project (Js.props o) (dev_scope options))).
    set (es := filter (λ e, needs_install satisfies project
      (Js.props o) (dev_scope options) e.1) (Js.entries o)).
    assert (∀ e, e ∈ es → e ∈ Js.entries o) as Hsub
      by (intros e [_ He]%list_elem_of_filter; done).
    assert (map (λ dep, getVersionedDep dep (Js.props o)) es.*1 =
            map (λ e, e.1 +:+ "@" +:+ e.2) es) as Hargs.
    { rewrite (entry_argument_get (Js.props o) es)
        by (intros [k v] He; by apply props_entry, Hsub).
      clearbody es. induction es as [|[k v] es IH]; [done|]. cbn [map].
      rewrite IH by (intros e He; apply Hsub; by right). f_equal.
      unfold entry_argument. simpl.
      destruct (Hranges k v) as [Hne _]; [apply Hsub; left|].
      by rewrite (proj2 (str_truthy_true v)). }
    clearbody es. destruct es as [|e es]; [done|].
    rewrite Hargs, fmap_cons. reflexivity.
  - intros dep Hdep. unfold Js.keys in Hdep.
    apply list_elem_of_fmap in Hdep as ([k v] & -> & Hin). simpl.
    apply invalid_range_false_iff. rewrite (props_entry o k v Hin). split.
    + intros r [= <-] _. by destruct (Hranges k v Hin).
    + done.
Qed.

(** X15. The commands of [install] and [uninstall] all run with the standard
    streams inherited and without a working directory of their own. *)
Theorem commands_inherit deps names options :
  Forall (λ c, stdio c = Inherit ∧ cwd c = None)
    (commands (inst'' deps options).1) ∧
  Forall (λ c, stdio c = Inherit ∧ cwd c = None)
    (commands (uninstall listify project names options).1).
Proof.
  split.
  - rewrite install_run.
    destruct (getUnsatisfiedDeps _ _ _ _ _ _) as [[|? ?]|?]; simpl;
      [constructor| |constructor].
    by apply Forall_singleton.
  - rewrite uninstall_run. destruct (filter _ _); simpl; [constructor|].
    by apply Forall_singleton.
Qed.

End Ranges.

(** ** The backend and the decision *)

Section BackendChange.

Variable validRange : string -> bool.
Variable satisfies : string -> string -> bool.
Variable listify : list string -> string.
Variable project : Project.

Abbreviation logged tr :=
  (omap (λ e, match e with LogInfo msg => Some msg | ExecCommand _ => None end)
     tr).

(** X16. The backend changes the command line and nothing else: forcing
    yarn on a project, against running the same [install] with npm on the
    project without its [yarn.lock], gives the same outcome and the same log
    lines, and either no command on both sides or one command on each, for
    the same package arguments in the same scope. *)
Theorem backend_keeps_decision deps options :
  let with_yarn :=
    install validRange satisfies listify project deps
      {| dev := dev options; yarn := Some true;
         versions := versions options |} in
  let with_npm :=
    install validRange satisfies listify
      {| pkg_dependencies := pkg_dependencies project;
         pkg_devDependencies := pkg_devDependencies project;
         node_modules := node_modules project;
         yarn_lock := false |}
      deps
      {| dev := dev options; yarn := Some false;
         versions := versions options |} in
  with_yarn.2 = with_npm.2 ∧
  logged with_yarn.1 = logged with_npm.1 ∧
  ((commands with_yarn.1 = [] ∧ commands with_npm.1 = []) ∨
   ∃ packages,
     commands with_yarn.1 =
       [backend_command true false (dev_scope options) packages] ∧
     commands with_npm.1 =
       [backend_command false false (dev_scope options) packages]).
Proof.
  intros with_yarn with_npm. unfold with_yarn, with_npm.
  rewrite !install_run.
  replace (requested deps
    {| dev := dev options; yarn := Some true; versions := versions options |})
    with (requested deps options) by (by destruct deps).
  replace (requested deps
    {| dev := dev options; yarn := Some false; versions := versions options |})
    with (requested deps options) by (by destruct deps).
  rewrite (getUnsatisfiedDeps_local validRange satisfies
             {| pkg_dependencies := pkg_dependencies project;
                pkg_devDependencies := pkg_devDependencies project;
                node_modules := node_modules project;
                yarn_lock := false |} project
             _ (requested deps options).2 (requested deps options).2)
    by done.
  change (dev_scope {| dev := dev options; yarn := Some true;
                       versions := versions options |})
    with (dev_scope options).
  change (dev_scope {| dev := dev options; yarn := Some false;
                       versions := versions options |})
    with (dev_scope options).
  destruct (getUnsatisfiedDeps _ _ _ _ _ _) as [[|dep newDeps]|e]; simpl.
  - split_and!; [done|done|by left].
  - split_and!; [done|done|]. right. eexists. split; reflexivity.
  - split_and!; [done|done|by left].
Qed.

End BackendChange.

(** ** The further properties at the scenarios *)

Section MoreInstances.

Import Scenario.

Abbreviation with_versions vs :=
  {| dev := None; yarn := None; versions := Some vs |}.

(** [install_first_invalid_range] on [install(['chalk', 'foo', 'bar'])] with
    the range [bogus] for [foo]. *)
Lemma install_first_invalid_range_foo :
  (requested (DepList ["chalk"; "foo"; "bar"])
     (with_versions {[ "foo" := "bogus" ]})).1 =
    (["chalk"] ++ "foo" :: ["bar"])%list ∧
  (∀ d, d ∈ ["chalk"] →
     (∀ r', (requested (DepList ["chalk"; "foo"; "bar"])
               (with_versions {[ "foo" := "bogus" ]})).2 !! d = Some r' →
            r' ≠ "" → Reference.validRange r' = true) ∧
     ((requested (DepList ["chalk"; "foo"; "bar"])
         (with_versions {[ "foo" := "bogus" ]})).2 !! d = None →
      d ∉ Js.prototype_members)) ∧
  (requested (DepList ["chalk"; "foo"; "bar"])
     (with_versions {[ "foo" := "bogus" ]})).2 !! "foo" = Some "bogus" ∧
  "bogus" ≠ "" ∧
  Reference.validRange "bogus" = false ∧
  install Reference.validRange Reference.satisfies Reference.listify
    settled_project (DepList ["chalk"; "foo"; "bar"])
    (with_versions {[ "foo" := "bogus" ]}) =
    ([], Thrown {| message :=
       "Invalid npm version: bogus. Use proper semver range syntax." |}).
Proof.
  assert (∀ d, d ∈ ["chalk"] →
     (∀ r', (requested (DepList ["chalk"; "foo"; "bar"])
               (with_versions {[ "foo" := "bogus" ]})).2 !! d = Some r' →
            r' ≠ "" → Reference.validRange r' = true) ∧
     ((requested (DepList ["chalk"; "foo"; "bar"])
         (with_versions {[ "foo" := "bogus" ]})).2 !! d = None →
      d ∉ Js.prototype_members)) as Hbefore.
  { intros d Hd. apply list_elem_of_singleton in Hd as ->. no_range. }
  assert ((requested (DepList ["chalk"; "foo"; "bar"])
     (with_versions {[ "foo" := "bogus" ]})).2 !! "foo" = Some "bogus")
    as Hrange by (vm_compute; reflexivity).
  assert ("bogus" ≠ "") as Hne by discriminate.
  assert (Reference.validRange "bogus" = false) as Hbad
    by (vm_compute; reflexivity).
  split_and!; [reflexivity|exact Hbefore|exact Hrange|exact Hne|exact Hbad|].
  exact (install_first_invalid_range Reference.validRange Reference.satisfies
           Reference.listify settled_project
           (DepList ["chalk"; "foo"; "bar"])
           (with_versions {[ "foo" := "bogus" ]})
           ["chalk"] "foo" ["bar"] "bogus" eq_refl Hbefore Hrange Hne Hbad).
Defined.

(** [getUnsatisfiedDeps_local] on a request for [chalk]: the settled and
    the outdated project differ at [lodash] only, and the invalid range is
    for [lodash]. *)
Lemma getUnsatisfiedDeps_local_chalk :
  (∀ dep, dep ∈ ["chalk"] →
     (∅ : gmap string string) !! dep
       = ({[ "lodash" := "bogus" ]} : gmap string string) !! dep ∧
     getInstalledVersion settled_project dep
       = getInstalledVersion outdated_project dep ∧
     getOwnDependencies settled_project true !! dep =
       getOwnDependencies outdated_project true !! dep) ∧
  getUnsatisfiedDeps Reference.validRange Reference.satisfies settled_project
    ["chalk"] ∅ true =
  getUnsatisfiedDeps Reference.validRange Reference.satisfies outdated_project
    ["chalk"] {[ "lodash" := "bogus" ]} true.
Proof.
  assert (∀ dep, dep ∈ ["chalk"] →
     (∅ : gmap string string) !! dep
       = ({[ "lodash" := "bogus" ]} : gmap string string) !! dep ∧
     getInstalledVersion settled_project dep
       = getInstalledVersion outdated_project dep ∧
     getOwnDependencies settled_project true !! dep =
       getOwnDependencies outdated_project true !! dep) as Hagree.
  { intros dep Hdep. apply list_elem_of_singleton in Hdep as ->.
    split_and!; vm_compute; reflexivity. }
  split; [exact Hagree|].
  exact (getUnsatisfiedDeps_local Reference.validRange Reference.satisfies
           settled_project outdated_project ["chalk"] ∅
           {[ "lodash" := "bogus" ]} true Hagree).
Defined.

(** [getUnsatisfiedDeps_idempotent] on the outdated project. *)
Lemma getUnsatisfiedDeps_idempotent_outdated :
  getUnsatisfiedDeps Reference.validRange Reference.satisfies outdated_project
    ["chalk"; "lodash"] (Js.props lodash_1_2) true = Returned ["lodash"] ∧
  getUnsatisfiedDeps Reference.validRange Reference.satisfies outdated_project
    ["lodash"] (Js.props lodash_1_2) true = Returned ["lodash"].
Proof.
  assert (getUnsatisfiedDeps Reference.validRange Reference.satisfies
    outdated_project ["chalk"; "lodash"] (Js.props lodash_1_2) true
    = Returned ["lodash"]) as Hres by (vm_compute; reflexivity).
  split; [exact Hres|].
  exact (getUnsatisfiedDeps_idempotent Reference.validRange
           Reference.satisfies outdated_project ["chalk"; "lodash"]
           (Js.props lodash_1_2) true ["lodash"] Hres).
Defined.

(** [install_acts_iff] on [install('chalk')] in the settled project. *)
Lemma install_acts_iff_chalk :
  (∀ dep, dep ∈ (requested (DepName "chalk") no_options).1 →
     (∀ r, (requested (DepName "chalk") no_options).2 !! dep = Some r →
           r ≠ "" → Reference.validRange r = true) ∧
     ((requested (DepName "chalk") no_options).2 !! dep = None →
      dep ∉ Js.prototype_members)) ∧
  (install Reference.validRange Reference.satisfies Reference.listify
     settled_project (DepName "chalk") no_options).1 = [].
Proof.
  assert (∀ dep, dep ∈ (requested (DepName "chalk") no_options).1 →
     (∀ r, (requested (DepName "chalk") no_options).2 !! dep = Some r →
           r ≠ "" → Reference.validRange r = true) ∧
     ((requested (DepName "chalk") no_options).2 !! dep = None →
      dep ∉ Js.prototype_members)) as Hvalid.
  { intros dep Hdep. apply list_elem_of_singleton in Hdep as ->. no_range. }
  split; [exact Hvalid|].
  apply (install_acts_iff Reference.validRange Reference.satisfies
           Reference.listify settled_project (DepName "chalk") no_options
           Hvalid).
  intros dep Hdep. apply list_elem_of_singleton in Hdep as ->.
  vm_compute; reflexivity.
Defined.

(** [install_without_versions] on [install(['a', 'b'])] in the fresh
    project. *)
Lemma install_without_versions_fresh :
  versions no_options = None ∧
  (∀ dep, dep ∈ ["a"; "b"] → dep ∉ Js.prototype_members) ∧
  install Reference.validRange Reference.satisfies Reference.listify
    fresh_project (DepList ["a"; "b"]) no_options =
    ([ LogInfo "Installing a and b...";
       ExecCommand
         {| program := "npm";
            args := ["install"; "--save-dev"; "a@latest"; "b@latest"];
            stdio := Inherit; cwd := None |} ],
     Returned ()).
Proof.
  assert (∀ dep, dep ∈ ["a"; "b"] → dep ∉ Js.prototype_members) as Hplain.
  { intros dep [->|Hdep]%elem_of_cons; [not_inherited|].
    apply list_elem_of_singleton in Hdep as ->. not_inherited. }
  split_and!; [reflexivity|exact Hplain|].
  rewrite (install_without_versions Reference.validRange Reference.satisfies
             Reference.listify fresh_project ["a"; "b"] no_options eq_refl
             Hplain).
  vm_compute; reflexivity.
Defined.

(** [install_uninstall_complement] on [chalk] in the settled project:
    [install] leaves it and [uninstall] would remove it. *)
Lemma install_uninstall_complement_chalk :
  getUnsatisfiedDeps Reference.validRange Reference.satisfies settled_project
    (requested (DepName "chalk") no_options).1
    (requested (DepName "chalk") no_options).2 (dev_scope no_options)
    = Returned [] ∧
  "chalk" ∈ (requested (DepName "chalk") no_options).1 ∧
  (∃ v, getInstalledVersion settled_project "chalk" = Some v ∧ v ≠ "") ∧
  ((requested (DepName "chalk") no_options).2 !! "chalk" = None ∨
   (requested (DepName "chalk") no_options).2 !! "chalk" = Some "") ∧
  ("chalk" ∈ ([] : list string) ↔
   uninstall Reference.listify settled_project (OneName "chalk") no_options
     = ([], Returned ())).
Proof.
  assert (getUnsatisfiedDeps Reference.validRange Reference.satisfies
    settled_project
    (requested (DepName "chalk") no_options).1
    (requested (DepName "chalk") no_options).2 (dev_scope no_options)
    = Returned []) as Hres by (vm_compute; reflexivity).
  assert ("chalk" ∈ (requested (DepName "chalk") no_options).1) as Hdep
    by (apply list_elem_of_singleton; reflexivity).
  assert (∃ v, getInstalledVersion settled_project "chalk" = Some v ∧ v ≠ "")
    as Hinstalled
    by (exists "2.4.1"; split; [vm_compute; reflexivity|discriminate]).
  assert ((requested (DepName "chalk") no_options).2 !! "chalk" = None ∨
          (requested (DepName "chalk") no_options).2 !! "chalk" = Some "")
    as Hrange by (left; vm_compute; reflexivity).
  split_and!; [exact Hres|exact Hdep|exact Hinstalled|exact Hrange|].
  exact (install_uninstall_complement Reference.validRange
           Reference.satisfies Reference.listify settled_project
           (DepName "chalk") no_options [] "chalk"
           Hres Hdep Hinstalled Hrange).
Defined.

(** [install_mapping_arguments] on [install({ lodash: '^4.0.0' })] in the
    fresh project. *)
Lemma install_mapping_arguments_lodash :
  (∀ k v, (k, v) ∈ Js.entries lodash_4 →
     v ≠ "" ∧ Reference.validRange v = true) ∧
  commands
    (install Reference.validRange Reference.satisfies Reference.listify
       fresh_project (DepVersions lodash_4) no_options).1 =
    [ {| program := "npm";
         args := ["install"; "--save-dev"; "lodash@^4.0.0"];
         stdio := Inherit; cwd := None |} ].
Proof.
  assert (∀ k v, (k, v) ∈ Js.entries lodash_4 →
     v ≠ "" ∧ Reference.validRange v = true) as Hranges.
  { intros k v Hin. apply list_elem_of_singleton in Hin.
    injection Hin as -> ->. split; [discriminate|vm_compute; reflexivity]. }
  split; [exact Hranges|].
  rewrite (install_mapping_arguments Reference.validRange Reference.satisfies
             Reference.listify fresh_project lodash_4 no_options Hranges).
  vm_compute; reflexivity.
Defined.

End MoreInstances.
